(** * Traffic-light detector node ([tl_detector.py]): model and properties

    The node caches the vehicle pose, the planned path and the list of
    traffic lights, and on every camera frame decides which waypoint index
    (or [-1]) to publish on [/traffic_waypoint].

    Numbers.  Python floats are read as exact rationals (every finite double
    is one) and the arithmetic is exact: rounding, overflow and NaN of
    binary64 are outside the model.  The only irrational quantity of the
    program, [math.sqrt (dx*dx + dy*dy)], is only ever compared, so it is
    kept symbolically as [Sqrt q] and compared through its radicand. *)

From Stdlib Require Import String ZArith QArith List Bool Lia Lqa.
Import ListNotations.
Local Open Scope Z_scope.

(** ** Python values flowing through the light-state channel *)

(** [get_light_state] returns either an integer colour id or the literal
    [False]; Python compares the two numerically ([False == 0]). *)
Inductive pyval : Type :=
| PyInt (n : Z)
| PyBool (b : bool).

Definition py_num (v : pyval) : Z :=
  match v with
  | PyInt n => n
  | PyBool true => 1
  | PyBool false => 0
  end.

(** Python [a == b] and [a != b] on such values. *)
Definition py_eqb (a b : pyval) : bool := py_num a =? py_num b.
Definition py_neqb (a b : pyval) : bool := negb (py_eqb a b).

(** Modelled from the spec: the message declaration [styx_msgs/TrafficLight]
    is not part of the sources.  It declares the four colour constants of
    the spec's data model, [{RED, YELLOW, GREEN, UNKNOWN}], as small
    unsigned integers with [RED = 0]. *)
Module TrafficLight.
Definition RED : Z := 0.
Definition YELLOW : Z := 1.
Definition GREEN : Z := 2.
Definition UNKNOWN : Z := 4.
End TrafficLight.

(** The colour constants as values of the light-state channel. *)
Definition RED : pyval := PyInt TrafficLight.RED.
Definition YELLOW : pyval := PyInt TrafficLight.YELLOW.
Definition GREEN : pyval := PyInt TrafficLight.GREEN.
Definition UNKNOWN : pyval := PyInt TrafficLight.UNKNOWN.

(** One entry of [/vehicle/traffic_lights]; only the ground-truth colour is
    ever read by the node. *)
Record Light : Type := { light_state : Z }.

(** ** Planar geometry *)

Definition Point : Type := (Q * Q)%type.

Definition Qltb (a b : Q) : bool := negb (Qle_bool b a).

(** [np.dot (a - o, c - p)] for the 2-vectors built in the loop. *)
Definition dot (ax ay bx by_ : Q) : Q := (ax * bx + ay * by_)%Q.

(** A distance is [math.sqrt q] for a radicand [q >= 0], or [float('inf')]. *)
Inductive dist : Type :=
| Sqrt (q : Q)
| Inf.

(** [a < b] on distances: the square root is increasing. *)
Definition dist_ltb (a b : dist) : bool :=
  match a, b with
  | Sqrt p, Sqrt q => Qltb p q
  | Sqrt _, Inf => true
  | Inf, _ => false
  end.

(** [a < c] and [a > c] against a numeric constant [c]. *)
Definition dist_lt_num (a : dist) (c : Q) : bool :=
  match a with
  | Sqrt p => Qltb 0 c && Qltb p (c * c)
  | Inf => false
  end.

Definition dist_gt_num (a : dist) (c : Q) : bool :=
  match a with
  | Sqrt p => Qltb c 0 || Qltb (c * c) p
  | Inf => true
  end.

(** Squared Euclidean distance, the radicand of every distance below. *)
Definition sqdist (a b : Point) : Q :=
  let diff_x := (fst a - fst b)%Q in
  let diff_y := (snd a - snd b)%Q in
  (diff_x * diff_x + diff_y * diff_y)%Q.

(** ** Module constants *)

Definition STATE_COUNT_THRESHOLD : Z := 3.
Definition LIGHT_DISTANCE_THRESHOLD : Q := 50%Q.
Definition GENERATE_DATASET : bool := true.
Definition IMAGE_CAPTURE_DISTANCE : Q := 100%Q.

(** ** The spatial index *)

(** Modelled from the spec: [scipy.spatial.KDTree] is a library class, not
    part of the sources.  Following section 4.1, the index is built over the
    full waypoint set and [query] is an exact nearest-neighbour search whose
    ties go to the lowest index.  The constructor needs a two-dimensional
    array, so it rejects an empty point list. *)
Record KDTree : Type := { data : list Point }.

Fixpoint nearest_from (p : Point) (pts : list Point) (idx : nat)
         (best : nat) (best_d : dist) : nat :=
  match pts with
  | [] => best
  | w :: rest =>
      let d := Sqrt (sqdist w p) in
      if dist_ltb d best_d
      then nearest_from p rest (S idx) idx d
      else nearest_from p rest (S idx) best best_d
  end.

(** [tree.query([x, y], 1)[1]]: with no neighbour at all the library
    reports the index [n]. *)
Definition query (t : KDTree) (p : Point) : nat :=
  nearest_from p (data t) 0 (length (data t)) Inf.

(** ** Exceptions and observable effects *)

Inductive exn : Type :=
| AttributeError (attr : string)
| IndexError
| ValueError.

Inductive result (A : Type) : Type :=
| Ok (a : A)
| Raise (e : exn).
Arguments Ok {A} a.
Arguments Raise {A} e.

Definition KDTree_new (pts : list Point) : result KDTree :=
  match pts with
  | [] => Raise ValueError
  | _ :: _ => Ok {| data := pts |}
  end.

(** ** The node *)

Section Detector.

(** A camera frame ([sensor_msgs/Image]) and the colour the classifier reads
    off it.  [get_classification] stands for the bridge conversion followed
    by [TLClassifier.get_classification]; both live outside the sources and
    the node treats them as one pure call. *)
Variable Image : Type.
Variable get_classification : Image -> Z.

(** What the outside world can see of a callback. *)
Inductive event : Type :=
| Publish (wp : Z)                    (* upcoming_red_light_pub.publish *)
| Classify (img : Image)              (* light_classifier.get_classification *)
| Capture (img : Image) (label : Z).  (* cv2.imwrite + dataset_file.write *)

(** The attributes of a [TLDetector] object.  An attribute that
    [__init__] never assigns is [None] until first written:
    [has_image] and [prev_light_loc] are such attributes. *)
Record TLDetector : Type := {
  pose : option Point;
  previous_pose : option Point;
  waypoints : option (list Point);
  waypoints_2d : option (list Point);
  waypoint_tree : option KDTree;
  camera_image : option Image;
  lights : list Light;
  image_write_ts : Z;
  config : list Point;               (* config['stop_line_positions'] *)
  state : pyval;
  last_state : pyval;
  last_wp : Z;
  state_count : Z;
  has_image : option bool;
  prev_light_loc : option unit
}.

Definition set_pose v d :=
  {| pose := v; previous_pose := previous_pose d; waypoints := waypoints d;
     waypoints_2d := waypoints_2d d; waypoint_tree := waypoint_tree d;
     camera_image := camera_image d; lights := lights d;
     image_write_ts := image_write_ts d; config := config d; state := state d;
     last_state := last_state d; last_wp := last_wp d;
     state_count := state_count d; has_image := has_image d;
     prev_light_loc := prev_light_loc d |}.

Definition set_previous_pose v d :=
  {| pose := pose d; previous_pose := v; waypoints := waypoints d;
     waypoints_2d := waypoints_2d d; waypoint_tree := waypoint_tree d;
     camera_image := camera_image d; lights := lights d;
     image_write_ts := image_write_ts d; config := config d; state := state d;
     last_state := last_state d; last_wp := last_wp d;
     state_count := state_count d; has_image := has_image d;
     prev_light_loc := prev_light_loc d |}.

Definition set_waypoints v d :=
  {| pose := pose d; previous_pose := previous_pose d; waypoints := v;
     waypoints_2d := waypoints_2d d; waypoint_tree := waypoint_tree d;
     camera_image := camera_image d; lights := lights d;
     image_write_ts := image_write_ts d; config := config d; state := state d;
     last_state := last_state d; last_wp := last_wp d;
     state_count := state_count d; has_image := has_image d;
     prev_light_loc := prev_light_loc d |}.

Definition set_waypoints_2d v d :=
  {| pose := pose d; previous_pose := previous_pose d; waypoints := waypoints d;
     waypoints_2d := v; waypoint_tree := waypoint_tree d;
     camera_image := camera_image d; lights := lights d;
     image_write_ts := image_write_ts d; config := config d; state := state d;
     last_state := last_state d; last_wp := last_wp d;
     state_count := state_count d; has_image := has_image d;
     prev_light_loc := prev_light_loc d |}.

Definition set_waypoint_tree v d :=
  {| pose := pose d; previous_pose := previous_pose d; waypoints := waypoints d;
     waypoints_2d := waypoints_2d d; waypoint_tree := v;
     camera_image := camera_image d; lights := lights d;
     image_write_ts := image_write_ts d; config := config d; state := state d;
     last_state := last_state d; last_wp := last_wp d;
     state_count := state_count d; has_image := has_image d;
     prev_light_loc := prev_light_loc d |}.

Definition set_camera_image v d :=
  {| pose := pose d; previous_pose := previous_pose d; waypoints := waypoints d;
     waypoints_2d := waypoints_2d d; waypoint_tree := waypoint_tree d;
     camera_image := v; lights := lights d;
     image_write_ts := image_write_ts d; config := config d; state := state d;
     last_state := last_state d; last_wp := last_wp d;
     state_count := state_count d; has_image := has_image d;
     prev_light_loc := prev_light_loc d |}.

Definition set_lights v d :=
  {| pose := pose d; previous_pose := previous_pose d; waypoints := waypoints d;
     waypoints_2d := waypoints_2d d; waypoint_tree := waypoint_tree d;
     camera_image := camera_image d; lights := v;
     image_write_ts := image_write_ts d; config := config d; state := state d;
     last_state := last_state d; last_wp := last_wp d;
     state_count := state_count d; has_image := has_image d;
     prev_light_loc := prev_light_loc d |}.

Definition set_image_write_ts v d :=
  {| pose := pose d; previous_pose := previous_pose d; waypoints := waypoints d;
     waypoints_2d := waypoints_2d d; waypoint_tree := waypoint_tree d;
     camera_image := camera_image d; lights := lights d;
     image_write_ts := v; config := config d; state := state d;
     last_state := last_state d; last_wp := last_wp d;
     state_count := state_count d; has_image := has_image d;
     prev_light_loc := prev_light_loc d |}.

Definition set_state v d :=
  {| pose := pose d; previous_pose := previous_pose d; waypoints := waypoints d;
     waypoints_2d := waypoints_2d d; waypoint_tree := waypoint_tree d;
     camera_image := camera_image d; lights := lights d;
     image_write_ts := image_write_ts d; config := config d; state := v;
     last_state := last_state d; last_wp := last_wp d;
     state_count := state_count d; has_image := has_image d;
     prev_light_loc := prev_light_loc d |}.

Definition set_last_state v d :=
  {| pose := pose d; previous_pose := previous_pose d; waypoints := waypoints d;
     waypoints_2d := waypoints_2d d; waypoint_tree := waypoint_tree d;
     camera_image := camera_image d; lights := lights d;
     image_write_ts := image_write_ts d; config := config d; state := state d;
     last_state := v; last_wp := last_wp d;
     state_count := state_count d; has_image := has_image d;
     prev_light_loc := prev_light_loc d |}.

Definition set_last_wp v d :=
  {| pose := pose d; previous_pose := previous_pose d; waypoints := waypoints d;
     waypoints_2d := waypoints_2d d; waypoint_tree := waypoint_tree d;
     camera_image := camera_image d; lights := lights d;
     image_write_ts := image_write_ts d; config := config d; state := state d;
     last_state := last_state d; last_wp := v;
     state_count := state_count d; has_image := has_image d;
     prev_light_loc := prev_light_loc d |}.

Definition set_state_count v d :=
  {| pose := pose d; previous_pose := previous_pose d; waypoints := waypoints d;
     waypoints_2d := waypoints_2d d; waypoint_tree := waypoint_tree d;
     camera_image := camera_image d; lights := lights d;
     image_write_ts := image_write_ts d; config := config d; state := state d;
     last_state := last_state d; last_wp := last_wp d;
     state_count := v; has_image := has_image d;
     prev_light_loc := prev_light_loc d |}.

Definition set_has_image v d :=
  {| pose := pose d; previous_pose := previous_pose d; waypoints := waypoints d;
     waypoints_2d := waypoints_2d d; waypoint_tree := waypoint_tree d;
     camera_image := camera_image d; lights := lights d;
     image_write_ts := image_write_ts d; config := config d; state := state d;
     last_state := last_state d; last_wp := last_wp d;
     state_count := state_count d; has_image := v;
     prev_light_loc := prev_light_loc d |}.

Definition set_prev_light_loc v d :=
  {| pose := pose d; previous_pose := previous_pose d; waypoints := waypoints d;
     waypoints_2d := waypoints_2d d; waypoint_tree := waypoint_tree d;
     camera_image := camera_image d; lights := lights d;
     image_write_ts := image_write_ts d; config := config d; state := state d;
     last_state := last_state d; last_wp := last_wp d;
     state_count := state_count d; has_image := has_image d;
     prev_light_loc := v |}.

(** *** Methods as state transformers

    A method runs on the object, may mutate it, may call out (the events of
    its log) and either returns or raises.  Mutations and calls made before
    a [raise] stay: Python does not roll them back. *)
Definition M (A : Type) : Type :=
  TLDetector -> TLDetector * list event * result A.

Definition ret {A} (a : A) : M A := fun d => (d, [], Ok a).
Definition raise {A} (e : exn) : M A := fun d => (d, [], Raise e).
Definition get : M TLDetector := fun d => (d, [], Ok d).
Definition modify (f : TLDetector -> TLDetector) : M unit :=
  fun d => (f d, [], Ok tt).
Definition emit (e : event) : M unit := fun d => (d, [e], Ok tt).
Definition lift {A} (r : result A) : M A := fun d => (d, [], r).

Definition bind {A B} (m : M A) (k : A -> M B) : M B :=
  fun d =>
    match m d with
    | (d1, l1, Ok a) =>
        match k a d1 with
        | (d2, l2, r) => (d2, l1 ++ l2, r)
        end
    | (d1, l1, Raise e) => (d1, l1, Raise e)
    end.

Notation "x <- m ;; k" := (bind m (fun x => k))
  (at level 61, m at next level, right associativity).
Notation "m ;;; k" := (bind m (fun _ => k))
  (at level 61, right associativity).

(** *** Subscriber callbacks for pose, path and lights *)

Definition pose_cb (msg : Point) : M unit :=
  d <- get ;;
  modify (set_previous_pose (pose d)) ;;;
  modify (set_pose (Some msg)).

(** Python truthiness of [self.waypoints_2d]: [None] and [[]] are falsy. *)
Definition truthy_list {A} (v : option (list A)) : bool :=
  match v with
  | None | Some [] => false
  | Some (_ :: _) => true
  end.

Definition waypoints_cb (wps : list Point) : M unit :=
  modify (set_waypoints (Some wps)) ;;;
  d <- get ;;
  if negb (truthy_list (waypoints_2d d)) then
    let pts := map (fun waypoint => (fst waypoint, snd waypoint)) wps in
    modify (set_waypoints_2d (Some pts)) ;;;
    t <- lift (KDTree_new pts) ;;
    modify (set_waypoint_tree (Some t))
  else ret tt.

Definition traffic_cb (msg : list Light) : M unit :=
  modify (set_lights msg).

(** *** Spatial index lookup *)

(** [self.waypoint_tree.query([x, y], 1)[1]]; on [None] the attribute lookup
    of [query] fails. *)
Definition get_closest_waypoint (x y : Q) : M Z :=
  d <- get ;;
  match waypoint_tree d with
  | None => raise (AttributeError "query")
  | Some t => ret (Z.of_nat (query t (x, y)))
  end.

(** *** Light state resolver *)

(** Reading [self.has_image] before any frame has assigned it fails. *)
Definition read_has_image : M bool :=
  d <- get ;;
  match has_image d with
  | None => raise (AttributeError "has_image")
  | Some b => ret b
  end.

(** Reading [self.camera_image] for the bridge: [__init__] sets it to
    [None], which the bridge cannot convert. *)
Definition read_camera_image : M Image :=
  d <- get ;;
  match camera_image d with
  | None => raise (AttributeError "encoding")
  | Some img => ret img
  end.

Definition get_light_state (light : Light) : M pyval :=
  b <- read_has_image ;;
  if negb b then
    modify (set_prev_light_loc (Some tt)) ;;;
    ret (PyBool false)
  else
    cv_image <- read_camera_image ;;
    emit (Classify cv_image) ;;;
    ret (PyInt (get_classification cv_image)).

(** *** Dataset capture *)

(** [rospy.Duration(0.2)] in nanoseconds. *)
Definition capture_period : Z := 200000000.

(** [now] is the reading of the ROS clock during this call. *)
Definition try_image_capture (now : Z) (light : Light) (light_distance : dist)
  : M unit :=
  if dist_gt_num light_distance IMAGE_CAPTURE_DISTANCE then ret tt
  else
    cv_image <- read_camera_image ;;
    b <- read_has_image ;;
    d <- get ;;
    if b && (py_neqb (state d) (PyInt (light_state light))
             || (image_write_ts d + capture_period <=? now))
    then
      modify (set_image_write_ts now) ;;;
      emit (Capture cv_image (light_state light))
    else ret tt.

(** *** Candidate selection: the loop of [process_traffic_lights] *)

(** The three loop variables. *)
Record Candidate : Type := {
  light_distance : dist;
  stop_line_idx : Z;
  closest_light : option Light
}.

Definition no_candidate : Candidate :=
  {| light_distance := Inf; stop_line_idx := -1; closest_light := None |}.

(** [val > 0] for the stop line [s], current pose [p], previous pose [q]. *)
Definition ahead (p q s : Point) : bool :=
  let val := dot (fst s - fst p) (snd s - snd p)
                 (fst p - fst q) (snd p - snd q) in
  Qltb 0 val.

(** One iteration of the loop body at index [idx]. *)
Definition visit (p q : Point) (stop_line_positions : list Point)
           (c : Candidate) (idx : nat) (light : Light) : result Candidate :=
  match nth_error stop_line_positions idx with
  | None => Raise IndexError
  | Some stop_line_position =>
      let distance := Sqrt (sqdist p stop_line_position) in
      if ahead p q stop_line_position && dist_ltb distance (light_distance c)
      then Ok {| light_distance := distance;
                 stop_line_idx := Z.of_nat idx;
                 closest_light := Some light |}
      else Ok c
  end.

(** [for idx, light in enumerate(self.lights)], from index [idx] on. *)
Fixpoint scan (p q : Point) (stop_line_positions : list Point) (idx : nat)
         (ls : list Light) (c : Candidate) : result Candidate :=
  match ls with
  | [] => Ok c
  | light :: rest =>
      match visit p q stop_line_positions c idx light with
      | Ok c' => scan p q stop_line_positions (S idx) rest c'
      | Raise e => Raise e
      end
  end.

(** The selector: the loop runs only when both poses are known. *)
Definition select_candidate (d : TLDetector) : result Candidate :=
  match pose d, previous_pose d with
  | Some p, Some q => scan p q (config d) 0 (lights d) no_candidate
  | _, _ => Ok no_candidate
  end.

(** Python list indexing [l[i]], negative indices counting from the end. *)
Definition py_index {A} (l : list A) (i : Z) : result A :=
  let j := if i <? 0 then i + Z.of_nat (length l) else i in
  if j <? 0 then Raise IndexError
  else match nth_error l (Z.to_nat j) with
       | Some a => Ok a
       | None => Raise IndexError
       end.

Definition process_traffic_lights (now : Z) : M (Z * pyval) :=
  d <- get ;;
  let stop_line_positions := config d in
  c <- lift (select_candidate d) ;;
  match closest_light c with
  | Some light =>
      (if GENERATE_DATASET
       then try_image_capture now light (light_distance c)
       else ret tt) ;;;
      if dist_lt_num (light_distance c) LIGHT_DISTANCE_THRESHOLD then
        light_state <- get_light_state light ;;
        stop_line_position <-
          lift (py_index stop_line_positions (stop_line_idx c)) ;;
        closest_light_wp_idx <-
          get_closest_waypoint (fst stop_line_position)
                               (snd stop_line_position) ;;
        ret (closest_light_wp_idx, light_state)
      else ret (-1, UNKNOWN)
  | None => ret (-1, UNKNOWN)
  end.

(** *** Debouncing and the camera callback *)

(** The tail of [image_cb]: the state counter and the publish decision. *)
Definition debounce (light_wp : Z) (st : pyval) : M unit :=
  d <- get ;;
  (if py_neqb (state d) st then
     modify (set_state_count 0) ;;;
     modify (set_state st)
   else if STATE_COUNT_THRESHOLD <=? state_count d then
     modify (set_last_state (state d)) ;;;
     let light_wp :=
       if py_eqb st RED then light_wp else -1 in
     modify (set_last_wp light_wp) ;;;
     emit (Publish light_wp)
   else
     emit (Publish (last_wp d))) ;;;
  d <- get ;;
  modify (set_state_count (state_count d + 1)).

Definition image_cb (msg : Image) (now : Z) : M unit :=
  modify (set_has_image (Some true)) ;;;
  modify (set_camera_image (Some msg)) ;;;
  r <- process_traffic_lights now ;;
  debounce (fst r) (snd r).

(** *** Start-up and the event loop *)

(** The object at the end of [__init__], for the stop lines read from the
    parameter server. *)
Definition init (stop_line_positions : list Point) : TLDetector :=
  {| pose := None; previous_pose := None; waypoints := None;
     waypoints_2d := None; waypoint_tree := None; camera_image := None;
     lights := []; image_write_ts := 0; config := stop_line_positions;
     state := UNKNOWN; last_state := UNKNOWN;
     last_wp := -1; state_count := 0;
     has_image := None; prev_light_loc := None |}.

(** The four subscriptions; a frame comes with the clock reading taken
    while it is handled. *)
Inductive message : Type :=
| CurrentPose (msg : Point)
| BaseWaypoints (wps : list Point)
| TrafficLights (msg : list Light)
| ImageColor (msg : Image) (now : Z).

Definition dispatch (m : message) : M unit :=
  match m with
  | CurrentPose msg => pose_cb msg
  | BaseWaypoints wps => waypoints_cb wps
  | TrafficLights msg => traffic_cb msg
  | ImageColor msg now => image_cb msg now
  end.

(** [rospy.spin()]: callbacks run one after the other; an exception raised
    by a callback ends that callback only. *)
Fixpoint run (d : TLDetector) (ms : list message) : TLDetector :=
  match ms with
  | [] => d
  | m :: rest => run (fst (fst (dispatch m d))) rest
  end.

(** The per-callback logs and outcomes along a run. *)
Fixpoint trace (d : TLDetector) (ms : list message)
  : list (list event * result unit) :=
  match ms with
  | [] => []
  | m :: rest =>
      let '(d', l, r) := dispatch m d in (l, r) :: trace d' rest
  end.

End Detector.

(** The frame type is recovered from the context everywhere below. *)
Arguments Publish {Image}.
Arguments Classify {Image}.
Arguments Capture {Image}.
Arguments Build_TLDetector {Image}.
Arguments pose {Image}.
Arguments previous_pose {Image}.
Arguments waypoints {Image}.
Arguments waypoints_2d {Image}.
Arguments waypoint_tree {Image}.
Arguments camera_image {Image}.
Arguments lights {Image}.
Arguments image_write_ts {Image}.
Arguments config {Image}.
Arguments state {Image}.
Arguments last_state {Image}.
Arguments last_wp {Image}.
Arguments state_count {Image}.
Arguments has_image {Image}.
Arguments prev_light_loc {Image}.
Arguments set_pose {Image}.
Arguments set_previous_pose {Image}.
Arguments set_waypoints {Image}.
Arguments set_waypoints_2d {Image}.
Arguments set_waypoint_tree {Image}.
Arguments set_camera_image {Image}.
Arguments set_lights {Image}.
Arguments set_image_write_ts {Image}.
Arguments set_state {Image}.
Arguments set_last_state {Image}.
Arguments set_last_wp {Image}.
Arguments set_state_count {Image}.
Arguments set_has_image {Image}.
Arguments set_prev_light_loc {Image}.
Arguments get {Image}.
Arguments modify {Image}.
Arguments emit {Image}.
Arguments pose_cb {Image}.
Arguments waypoints_cb {Image}.
Arguments traffic_cb {Image}.
Arguments get_closest_waypoint {Image}.
Arguments read_has_image {Image}.
Arguments read_camera_image {Image}.
Arguments get_light_state {Image}.
Arguments try_image_capture {Image}.
Arguments select_candidate {Image}.
Arguments process_traffic_lights {Image}.
Arguments debounce {Image}.
Arguments image_cb {Image}.
Arguments init {Image}.
Arguments CurrentPose {Image}.
Arguments BaseWaypoints {Image}.
Arguments TrafficLights {Image}.
Arguments ImageColor {Image}.
Arguments dispatch {Image}.
Arguments run {Image}.
Arguments trace {Image}.
Arguments ret {Image A} a.
Arguments raise {Image A} e.
Arguments lift {Image A} r.
Arguments bind {Image A B} m k.

(** ** Observations and specification predicates *)

Section Observations.

Context {Image : Type}.

(** The integers a callback sent to [/traffic_waypoint], in order. *)
Definition published (l : list (event Image)) : list Z :=
  flat_map (fun e => match e with Publish wp => [wp] | _ => [] end) l.

(** The frames a callback handed to the classifier, in order. *)
Definition classified (l : list (event Image)) : list Image :=
  flat_map (fun e => match e with Classify img => [img] | _ => [] end) l.

(** Feeding a sequence of per-frame [(light_wp, state)] pairs through the
    debounce step, keeping each frame's log. *)
Fixpoint feed (d : TLDetector Image) (frames : list (Z * pyval))
  : list (list (event Image)) :=
  match frames with
  | [] => []
  | (light_wp, st) :: rest =>
      let '(d', l, _) := debounce light_wp st d in l :: feed d' rest
  end.

(** The state in which [image_cb] calls [process_traffic_lights]. *)
Definition with_frame (msg : Image) (d : TLDetector Image) : TLDetector Image :=
  set_camera_image (Some msg) (set_has_image (Some true) d).

End Observations.

(** [c] is what the selector must hold after looking at the intersections
    [0 .. n-1]: nothing when none of them is ahead, otherwise the nearest one
    ahead, the earliest among equally near ones. *)
Definition nearest_ahead (p q : Point) (stops : list Point) (ls : list Light)
           (n : nat) (c : Candidate) : Prop :=
  match closest_light c with
  | None =>
      c = no_candidate /\
      forall j t, (j < n)%nat -> nth_error stops j = Some t ->
                  ahead p q t = false
  | Some l =>
      exists i s,
        (i < n)%nat /\ nth_error stops i = Some s /\ nth_error ls i = Some l /\
        ahead p q s = true /\
        stop_line_idx c = Z.of_nat i /\
        light_distance c = Sqrt (sqdist p s) /\
        (forall j t, (j < n)%nat -> nth_error stops j = Some t ->
                     ahead p q t = true -> (sqdist p s <= sqdist p t)%Q) /\
        (forall j t, (j < i)%nat -> nth_error stops j = Some t ->
                     ahead p q t = true -> (sqdist p s < sqdist p t)%Q)
  end.

(** [i] is the index of a point of [pts] nearest to [p], the lowest such. *)
Definition nearest_waypoint (pts : list Point) (p : Point) (i : nat) : Prop :=
  exists w,
    nth_error pts i = Some w /\
    (forall j v, nth_error pts j = Some v -> (sqdist w p <= sqdist v p)%Q) /\
    (forall j v, (j < i)%nat -> nth_error pts j = Some v ->
                 (sqdist w p < sqdist v p)%Q).

(** What the linear scan knows after the points [done]: [best] indexes a
    nearest one of them, the lowest such, and [best_d] is its distance. *)
Definition scanned (p : Point) (done : list Point) (best : nat) (best_d : dist)
  : Prop :=
  best_d = match nth_error done best with
           | Some w => Sqrt (sqdist w p)
           | None => Inf
           end /\
  nearest_waypoint done p best.

(** A held candidate points into the stop-line list. *)
Definition indexed (stops : list Point) (c : Candidate) : Prop :=
  match closest_light c with
  | None => True
  | Some _ => exists i s, stop_line_idx c = Z.of_nat i /\
                          nth_error stops i = Some s
  end.

(** The outcome of the camera callback, read off the cached inputs: it
    fails where the selector fails, and where a candidate nearer than the
    relevance distance meets a missing waypoint tree. *)
Definition frame_outcome {Image : Type} (d : TLDetector Image) : result unit :=
  match select_candidate d with
  | Raise e => Raise e
  | Ok c =>
      match closest_light c with
      | None => Ok tt
      | Some _ =>
          if dist_lt_num (light_distance c) LIGHT_DISTANCE_THRESHOLD then
            match waypoint_tree d with
            | None => Raise (AttributeError "query")
            | Some _ => Ok tt
            end
          else Ok tt
      end
  end.

(** The attributes written by the pose, path and light subscriptions and
    by start-up, as one value. *)
Definition inputs {Image : Type} (d : TLDetector Image) :=
  (pose d, previous_pose d, waypoints d, waypoints_2d d, waypoint_tree d,
   lights d, config d).

(** The four attributes of the debounce state machine. *)
Definition debounce_state {Image : Type} (d : TLDetector Image) :=
  (state d, last_state d, last_wp d, state_count d).

(** What an observer of a frame can tell: the integers published, the
    frames classified, the outcome, and the debounce attributes left. *)
Definition frame_view {Image : Type}
           (r : TLDetector Image * list (event Image) * result unit) :=
  (published (snd (fst r)), classified (snd (fst r)), snd r,
   debounce_state (fst (fst r))).

(** The tree, when there is one, indexes the non-empty point list kept in
    [waypoints_2d]. *)
Definition tree_built {Image : Type} (d : TLDetector Image) : Prop :=
  forall t, waypoint_tree d = Some t ->
            data t <> [] /\ waypoints_2d d = Some (data t).

(** [v] is [-1] or what the tree answers for a configured stop line. *)
Definition served {Image : Type} (d : TLDetector Image) (v : Z) : Prop :=
  v = -1 \/
  exists t s,
    waypoint_tree d = Some t /\ In s (config d) /\
    v = Z.of_nat (query t s) /\ (query t s < length (data t))%nat.

(** Number of pose messages in a run. *)
Fixpoint pose_updates {Image : Type} (ms : list (message Image)) : nat :=
  match ms with
  | [] => 0
  | CurrentPose _ :: rest => S (pose_updates rest)
  | _ :: rest => pose_updates rest
  end.

(** ** Concrete scenes

    A frame is identified with the colour id the classifier reads off it. *)

Definition read_colour (img : Z) : Z := img.

Definition red_light : Light := {| light_state := TrafficLight.RED |}.

(** Start-up with no stop line configured. *)
Definition fresh : TLDetector Z := init [].

(** The car moved from [(0,0)] to [(1,0)]; one stop line lies ahead at
    [(5,0)], one behind at [(-5,0)]. *)
Definition two_lights : TLDetector Z :=
  run read_colour (init [(5, 0); (-5, 0)]%Q)
      [CurrentPose (0, 0)%Q; CurrentPose (1, 0)%Q;
       TrafficLights [red_light; red_light]].

(** The car moved from [(-1,0)] to [(0,0)] towards a single stop line at
    [(stop, 0)]; [feeds] are the path deliveries received before. *)
Definition approaching (stop : Q) (feeds : list (list Point)) : TLDetector Z :=
  run read_colour (init [(stop, 0%Q)])
      (map BaseWaypoints feeds ++
       [CurrentPose (-1, 0)%Q; CurrentPose (0, 0)%Q;
        TrafficLights [red_light]]).

Definition straight_path : list Point := [(0, 0); (49, 0); (60, 0)]%Q.

(** A square path and its centre. *)
Definition square_path : list Point := [(0, 0); (2, 0); (2, 2); (0, 2)]%Q.

(** Two stop lines configured, one light reported. *)
Definition one_light_two_stops : TLDetector Z :=
  run read_colour (init [(5, 0); (9, 0)]%Q) [TrafficLights [red_light]].

(** The car reported the same pose twice, right before a stop line. *)
Definition standing_still : TLDetector Z :=
  run read_colour (init [(5, 0)%Q])
      [CurrentPose (1, 0)%Q; CurrentPose (1, 0)%Q; TrafficLights [red_light]].

(** A path, an approach to a stop line ten units ahead, and four frames
    that all read [RED]. *)
Definition red_ahead : list (message Z) :=
  [BaseWaypoints [(0, 0); (9, 0); (49, 0)]%Q;
   CurrentPose (-1, 0)%Q; CurrentPose (0, 0)%Q; TrafficLights [red_light];
   ImageColor 0 5; ImageColor 0 6; ImageColor 0 7; ImageColor 0 8].

(** ** Properties *)

Section Properties.

Variable Image : Type.
Variable get_classification : Image -> Z.

(** *** Order on rationals and distances *)

Lemma Qltb_true (a b : Q) : Qltb a b = true <-> (a < b)%Q.
Proof.
  unfold Qltb. rewrite negb_true_iff. split; intro H.
  - apply Qnot_le_lt. intro L. apply Qle_bool_iff in L. congruence.
  - destruct (Qle_bool b a) eqn:E; [|reflexivity].
    apply Qle_bool_iff in E. exfalso. apply (Qlt_not_le _ _ H E).
Qed.

Lemma Qltb_false (a b : Q) : Qltb a b = false <-> (b <= a)%Q.
Proof.
  unfold Qltb. rewrite negb_false_iff. apply Qle_bool_iff.
Qed.

(** *** The debounce step *)

(** C1 (as amended).  From the initial debounce state the six frames
    [RED, RED, GREEN, RED, RED, RED] only ever emit [-1], the sixth frame
    included; the mapped waypoint index [w] is first emitted by a seventh
    frame that is [RED] again, the fourth consecutive one. *)
Theorem debounce_commits_on_fourth_red :
  forall (d : TLDetector Image) (w wg : Z),
    state d = UNKNOWN -> state_count d = 0 -> last_wp d = -1 -> 0 <= w ->
    let logs :=
      feed d [(w, RED); (w, RED); (wg, GREEN);
              (w, RED); (w, RED); (w, RED); (w, RED)] in
    Forall (fun l => Forall (fun v => v = -1) (published l)) (firstn 6 logs) /\
    option_map published (nth_error logs 5) = Some [-1] /\
    option_map published (nth_error logs 6) = Some [w] /\
    w <> -1.
Proof.
  intros d w wg Hs Hc Hw Hpos.
  destruct d; simpl in Hs, Hc, Hw; subst.
  cbv zeta. vm_compute feed.
  repeat split; try lia; repeat constructor.
Qed.

(** *** Candidate selection *)

Lemma dist_ltb_Sqrt (a b : Q) : dist_ltb (Sqrt a) (Sqrt b) = true <-> (a < b)%Q.
Proof. apply Qltb_true. Qed.

Lemma dist_ltb_Sqrt_false (a b : Q) :
  dist_ltb (Sqrt a) (Sqrt b) = false <-> (b <= a)%Q.
Proof. apply Qltb_false. Qed.

Lemma nearest_ahead_start (p q : Point) (stops : list Point) (ls : list Light) :
  nearest_ahead p q stops ls 0 no_candidate.
Proof.
  unfold nearest_ahead; simpl. split; [reflexivity|]. intros j t Hj. lia.
Qed.

(** One loop iteration keeps the invariant. *)
Lemma visit_nearest_ahead (p q : Point) (stops : list Point) (ls : list Light)
      (n : nat) (c : Candidate) (s : Point) (l : Light) :
  nearest_ahead p q stops ls n c ->
  nth_error stops n = Some s ->
  nth_error ls n = Some l ->
  exists c', visit p q stops c n l = Ok c' /\
             nearest_ahead p q stops ls (S n) c'.
Proof.
  intros Hinv Hs Hl. unfold visit. rewrite Hs.
  assert (Hcase : forall j, (j < S n)%nat -> (j < n)%nat \/ j = n) by lia.
  destruct (ahead p q s) eqn:Ha; cbn [andb].
  - destruct (dist_ltb (Sqrt (sqdist p s)) (light_distance c)) eqn:Hlt.
    + eexists; split; [reflexivity|].
      unfold nearest_ahead; simpl. exists n, s.
      repeat split; auto.
      * intros j t Hj Ht Hat. destruct (Hcase j Hj) as [Hj'|Hj'].
        -- unfold nearest_ahead in Hinv.
           destruct (closest_light c) as [l0|].
           ++ destruct Hinv as (i & s0 & _ & _ & _ & _ & _ & Hd & Hmin & _).
              rewrite Hd in Hlt. apply dist_ltb_Sqrt in Hlt.
              specialize (Hmin j t Hj' Ht Hat).
              apply Qlt_le_weak. eapply Qlt_le_trans; eauto.
           ++ destruct Hinv as [_ Hnone].
              rewrite (Hnone j t Hj' Ht) in Hat. discriminate.
        -- subst j. rewrite Hs in Ht. inversion Ht; subst. apply Qle_refl.
      * intros j t Hj Ht Hat.
        unfold nearest_ahead in Hinv.
        destruct (closest_light c) as [l0|].
        -- destruct Hinv as (i & s0 & _ & _ & _ & _ & _ & Hd & Hmin & _).
           rewrite Hd in Hlt. apply dist_ltb_Sqrt in Hlt.
           specialize (Hmin j t Hj Ht Hat).
           eapply Qlt_le_trans; eauto.
        -- destruct Hinv as [_ Hnone].
           rewrite (Hnone j t Hj Ht) in Hat. discriminate.
    + eexists; split; [reflexivity|].
      unfold nearest_ahead in *.
      destruct (closest_light c) as [l0|].
      * destruct Hinv as (i & s0 & Hi & Hs0 & Hl0 & Ha0 & Hidx & Hd & Hmin & Hlow).
        exists i, s0. repeat split; auto.
        intros j t Hj Ht Hat. destruct (Hcase j Hj) as [Hj'|Hj'].
        -- eauto.
        -- subst j. rewrite Hs in Ht. inversion Ht; subst.
           rewrite Hd in Hlt. apply dist_ltb_Sqrt_false in Hlt. exact Hlt.
      * destruct Hinv as [Hc _]. subst c. simpl in Hlt. discriminate.
  - eexists; split; [reflexivity|].
    unfold nearest_ahead in *.
    destruct (closest_light c) as [l0|].
    + destruct Hinv as (i & s0 & Hi & Hs0 & Hl0 & Ha0 & Hidx & Hd & Hmin & Hlow).
      exists i, s0. repeat split; auto.
      intros j t Hj Ht Hat. destruct (Hcase j Hj) as [Hj'|Hj'].
      * eauto.
      * subst j. rewrite Hs in Ht. inversion Ht; subst. congruence.
    + destruct Hinv as [Hc Hnone]. split; [exact Hc|].
      intros j t Hj Ht. destruct (Hcase j Hj) as [Hj'|Hj'].
      * eauto.
      * subst j. rewrite Hs in Ht. inversion Ht; subst. exact Ha.
Qed.

(** The loop over a suffix [rest] of the lights, entered at index
    [length done]. *)
Lemma scan_nearest_ahead (p q : Point) (stops : list Point) :
  forall (rest done : list Light) (c : Candidate),
    (length done + length rest <= length stops)%nat ->
    nearest_ahead p q stops (done ++ rest) (length done) c ->
    exists c', scan p q stops (length done) rest c = Ok c' /\
               nearest_ahead p q stops (done ++ rest)
                             (length done + length rest) c'.
Proof.
  induction rest as [|l rest IH]; intros done c Hlen Hinv; simpl in *.
  - exists c. split; [reflexivity|]. rewrite Nat.add_0_r. exact Hinv.
  - destruct (nth_error stops (length done)) as [s|] eqn:Hs.
    2:{ apply nth_error_None in Hs. lia. }
    assert (Hl : nth_error (done ++ l :: rest) (length done) = Some l).
    { rewrite nth_error_app2 by lia. rewrite Nat.sub_diag. reflexivity. }
    destruct (visit_nearest_ahead p q stops (done ++ l :: rest)
                (length done) c s l Hinv Hs Hl) as (c1 & Hv & Hinv1).
    rewrite Hv.
    specialize (IH (done ++ [l]) c1).
    rewrite <- app_assoc in IH. simpl in IH.
    rewrite length_app in IH. simpl in IH.
    replace (length done + 1)%nat with (S (length done)) in IH by lia.
    destruct IH as (c' & Hscan & Hfin); [lia|exact Hinv1|].
    exists c'. split; [exact Hscan|].
    replace (length done + S (length rest))%nat
      with (S (length done) + length rest)%nat by lia.
    exact Hfin.
Qed.

(** C4.  Without both poses the selector returns no candidate.  With both,
    and stop lines index-aligned with the lights, it returns the
    intersection nearest to the current pose among exactly those whose stop
    line has a positive dot product with the motion vector, the lowest index
    among equally near ones, and no candidate when there is none. *)
Theorem select_candidate_nearest_ahead :
  forall d : TLDetector Image,
    length (lights d) = length (config d) ->
    (pose d = None \/ previous_pose d = None ->
     select_candidate d = Ok no_candidate) /\
    (forall p q, pose d = Some p -> previous_pose d = Some q ->
       exists c, select_candidate d = Ok c /\
                 nearest_ahead p q (config d) (lights d)
                               (length (config d)) c).
Proof.
  intros d Hlen. split.
  - intros [H|H]; unfold select_candidate; rewrite H;
      [reflexivity | destruct (pose d); reflexivity].
  - intros p q Hp Hq. unfold select_candidate. rewrite Hp, Hq.
    destruct (scan_nearest_ahead p q (config d) (lights d) [] no_candidate)
      as (c & Hscan & Hfin).
    + simpl. lia.
    + apply nearest_ahead_start.
    + simpl in *. exists c. split; [exact Hscan|]. rewrite <- Hlen. exact Hfin.
Qed.

(** *** The spatial index *)

Lemma nearest_from_scanned (p : Point) :
  forall (rest done : list Point) (best : nat) (best_d : dist),
    scanned p done best best_d ->
    nearest_waypoint (done ++ rest) p
                     (nearest_from p rest (length done) best best_d).
Proof.
  induction rest as [|w rest IH]; intros done best best_d [Hd Hn];
    cbn [nearest_from].
  - rewrite app_nil_r. exact Hn.
  - destruct Hn as (w0 & Hw0 & Hmin & Hlow). rewrite Hw0 in Hd. subst best_d.
    assert (Hb : (best < length done)%nat).
    { apply nth_error_Some. congruence. }
    replace (done ++ w :: rest) with ((done ++ [w]) ++ rest)
      by (rewrite <- app_assoc; reflexivity).
    assert (Hsplit : forall j v, nth_error (done ++ [w]) j = Some v ->
              ((j < length done)%nat /\ nth_error done j = Some v) \/
              (j = length done /\ v = w)).
    { intros j v Hj. destruct (Nat.lt_ge_cases j (length done)) as [L|G].
      - left. split; [exact L|]. rewrite nth_error_app1 in Hj by exact L.
        exact Hj.
      - right. rewrite nth_error_app2 in Hj by exact G.
        destruct (j - length done)%nat as [|k] eqn:E; simpl in Hj.
        + inversion Hj. split; [lia|reflexivity].
        + destruct k; discriminate. }
    destruct (dist_ltb (Sqrt (sqdist w p)) (Sqrt (sqdist w0 p))) eqn:Hlt.
    + apply dist_ltb_Sqrt in Hlt.
      replace (S (length done)) with (length (done ++ [w]))
        by (rewrite length_app; simpl; lia).
      apply IH. split.
      * rewrite nth_error_app2 by lia. rewrite Nat.sub_diag. reflexivity.
      * exists w. split; [|split].
        -- rewrite nth_error_app2 by lia. rewrite Nat.sub_diag. reflexivity.
        -- intros j v Hj. destruct (Hsplit j v Hj) as [[L Hv]|[E Hv]].
           ++ apply Qlt_le_weak. eapply Qlt_le_trans; [exact Hlt|]. eauto.
           ++ subst v. apply Qle_refl.
        -- intros j v L Hj. destruct (Hsplit j v Hj) as [[_ Hv]|[E _]].
           ++ eapply Qlt_le_trans; [exact Hlt|]. eauto.
           ++ lia.
    + apply dist_ltb_Sqrt_false in Hlt.
      replace (S (length done)) with (length (done ++ [w]))
        by (rewrite length_app; simpl; lia).
      apply IH. split.
      * rewrite nth_error_app1 by exact Hb. rewrite Hw0. reflexivity.
      * exists w0. split; [|split].
        -- rewrite nth_error_app1 by exact Hb. exact Hw0.
        -- intros j v Hj. destruct (Hsplit j v Hj) as [[L Hv]|[E Hv]].
           ++ eauto.
           ++ subst v. exact Hlt.
        -- intros j v L Hj. destruct (Hsplit j v Hj) as [[_ Hv]|[E _]].
           ++ eauto.
           ++ lia.
Qed.

Lemma query_nearest (t : KDTree) (p : Point) :
  data t <> [] -> nearest_waypoint (data t) p (query t p).
Proof.
  unfold query. destruct (data t) as [|w rest] eqn:E; [congruence|]. intros _.
  simpl. apply (nearest_from_scanned p rest [w] 0%nat (Sqrt (sqdist w p))).
  split; [reflexivity|]. exists w. split; [reflexivity|]. split.
  - intros j v Hj. destruct j as [|j]; simpl in Hj.
    + inversion Hj. apply Qle_refl.
    + destruct j; discriminate.
  - intros j v L. lia.
Qed.

(** C7.  On a built waypoint set, [get_closest_waypoint] returns the index
    of a waypoint at minimal Euclidean distance from [(x, y)], and every
    waypoint of lower index is strictly farther. *)
Theorem get_closest_waypoint_nearest :
  forall (d : TLDetector Image) (pts : list Point) (t : KDTree) (x y : Q),
    KDTree_new pts = Ok t ->
    waypoint_tree d = Some t ->
    exists i : nat,
      get_closest_waypoint x y d = (d, [], Ok (Z.of_nat i)) /\
      nearest_waypoint pts (x, y) i.
Proof.
  intros d pts t x y Hnew Ht.
  destruct pts as [|w rest]; simpl in Hnew; [discriminate|].
  inversion Hnew; subst t. clear Hnew.
  exists (query {| data := w :: rest |} (x, y)). split.
  - unfold get_closest_waypoint, bind, get, ret. rewrite Ht. reflexivity.
  - apply (query_nearest {| data := w :: rest |}). simpl. discriminate.
Qed.

(** *** One frame through [process_traffic_lights] *)

Ltac unfold_m :=
  unfold bind, ret, raise, get, modify, emit, lift in *.

Lemma select_candidate_with_frame (msg : Image) (d : TLDetector Image) :
  select_candidate (with_frame msg d) = select_candidate d.
Proof. reflexivity. Qed.

Lemma py_index_of_nat {A} (l : list A) (i : nat) (a : A) :
  nth_error l i = Some a -> py_index l (Z.of_nat i) = Ok a.
Proof.
  intro H. unfold py_index.
  destruct (Z.of_nat i <? 0) eqn:E; [apply Z.ltb_lt in E; lia|].
  rewrite E. rewrite Nat2Z.id, H. reflexivity.
Qed.

Lemma scan_indexed (p q : Point) (stops : list Point) :
  forall (rest : list Light) (idx : nat) (c c' : Candidate),
    indexed stops c ->
    scan p q stops idx rest c = Ok c' ->
    indexed stops c'.
Proof.
  induction rest as [|l rest IH]; intros idx c c' Hc Hscan; simpl in Hscan.
  - inversion Hscan; subst. exact Hc.
  - destruct (visit p q stops c idx l) as [c1|e] eqn:Hv; [|discriminate].
    apply (IH (S idx) c1 c'); [|exact Hscan].
    unfold visit in Hv.
    destruct (nth_error stops idx) as [s|] eqn:Hs; [|discriminate].
    destruct (ahead p q s && dist_ltb (Sqrt (sqdist p s)) (light_distance c));
      inversion Hv; subst; [|exact Hc].
    unfold indexed; simpl. exists idx, s. split; [reflexivity|exact Hs].
Qed.

Lemma select_candidate_indexed (d : TLDetector Image) (c : Candidate) :
  select_candidate d = Ok c -> indexed (config d) c.
Proof.
  unfold select_candidate. intro H.
  assert (Hno : indexed (config d) no_candidate) by exact I.
  destruct (pose d) as [p|]; [|inversion H; subst; exact Hno].
  destruct (previous_pose d) as [q|]; [|inversion H; subst; exact Hno].
  eapply scan_indexed; eauto.
Qed.

(** On a frame the dataset capture never fails, never classifies, never
    publishes, and touches the capture timestamp only. *)
Lemma try_image_capture_frame (now : Z) (light : Light) (ld : dist)
      (msg : Image) (d : TLDetector Image) :
  exists d1 log1,
    try_image_capture now light ld (with_frame msg d) = (d1, log1, Ok tt) /\
    (d1 = with_frame msg d \/ d1 = set_image_write_ts now (with_frame msg d)) /\
    classified log1 = [] /\ published log1 = [].
Proof.
  unfold try_image_capture.
  destruct (dist_gt_num ld IMAGE_CAPTURE_DISTANCE).
  - do 2 eexists. unfold_m. split; [reflexivity|]. auto.
  - unfold read_camera_image, read_has_image. unfold_m. simpl.
    destruct (py_neqb (state d) (PyInt (light_state light))
              || (image_write_ts d + capture_period <=? now)); simpl.
    + do 2 eexists. split; [reflexivity|]. auto.
    + do 2 eexists. split; [reflexivity|]. auto.
Qed.

(** What [process_traffic_lights] does on a frame once a candidate is
    held. *)
Lemma process_traffic_lights_candidate (d : TLDetector Image) (msg : Image)
      (now : Z) (c : Candidate) (light : Light) :
  select_candidate d = Ok c ->
  closest_light c = Some light ->
  exists d1 log1 s,
    (d1 = with_frame msg d \/ d1 = set_image_write_ts now (with_frame msg d)) /\
    classified log1 = [] /\ published log1 = [] /\
    py_index (config d) (stop_line_idx c) = Ok s /\
    process_traffic_lights get_classification now (with_frame msg d) =
      if dist_lt_num (light_distance c) LIGHT_DISTANCE_THRESHOLD then
        match waypoint_tree d with
        | Some t =>
            (d1, log1 ++ [Classify msg],
             Ok (Z.of_nat (query t s), PyInt (get_classification msg)))
        | None =>
            (d1, log1 ++ [Classify msg], Raise (AttributeError "query"))
        end
      else (d1, log1, Ok (-1, UNKNOWN)).
Proof.
  intros Hsel Hl.
  pose proof (select_candidate_indexed d c Hsel) as Hidx.
  unfold indexed in Hidx. rewrite Hl in Hidx.
  destruct Hidx as (i & [sx sy] & Hi & Hs).
  pose proof (py_index_of_nat _ _ _ Hs) as Hpy. rewrite <- Hi in Hpy.
  destruct (try_image_capture_frame now light (light_distance c) msg d)
    as (d1 & log1 & Hcap & Hd1 & Hc1 & Hp1).
  exists d1, log1, (sx, sy). repeat split; auto.
  unfold process_traffic_lights.
  unfold bind at 1. unfold get at 1.
  unfold bind at 1. unfold lift at 1.
  rewrite select_candidate_with_frame, Hsel. rewrite Hl.
  unfold GENERATE_DATASET.
  unfold bind at 1. rewrite Hcap.
  destruct (dist_lt_num (light_distance c) LIGHT_DISTANCE_THRESHOLD).
  - assert (Hcfg : config (with_frame msg d) = config d) by reflexivity.
    rewrite Hcfg, Hpy.
    unfold get_light_state, get_closest_waypoint, read_has_image,
      read_camera_image.
    destruct Hd1 as [-> | ->]; unfold_m; simpl;
      destruct (waypoint_tree d); simpl; rewrite ?app_nil_r; reflexivity.
  - unfold_m. simpl. rewrite ?app_nil_r. reflexivity.
Qed.

Lemma process_traffic_lights_raise (d : TLDetector Image) (msg : Image)
      (now : Z) (e : exn) :
  select_candidate d = Raise e ->
  process_traffic_lights get_classification now (with_frame msg d) =
    (with_frame msg d, [], Raise e).
Proof.
  intro Hsel. unfold process_traffic_lights.
  unfold bind at 1. unfold get at 1.
  unfold bind at 1. unfold lift at 1.
  rewrite select_candidate_with_frame, Hsel. reflexivity.
Qed.

Lemma process_traffic_lights_no_candidate (d : TLDetector Image) (msg : Image)
      (now : Z) (c : Candidate) :
  select_candidate d = Ok c ->
  closest_light c = None ->
  process_traffic_lights get_classification now (with_frame msg d) =
    (with_frame msg d, [], Ok (-1, UNKNOWN)).
Proof.
  intros Hsel Hl. unfold process_traffic_lights.
  unfold bind at 1. unfold get at 1.
  unfold bind at 1. unfold lift at 1.
  rewrite select_candidate_with_frame, Hsel. rewrite Hl. reflexivity.
Qed.

Lemma classified_app (l1 l2 : list (event Image)) :
  classified (l1 ++ l2) = classified l1 ++ classified l2.
Proof. unfold classified. apply flat_map_app. Qed.

Lemma published_app (l1 l2 : list (event Image)) :
  published (l1 ++ l2) = published l1 ++ published l2.
Proof. unfold published. apply flat_map_app. Qed.

(** C5 (as amended).  On a frame with a selected candidate: at a distance
    not strictly below 50 the result is [(-1, UNKNOWN)] and the classifier
    is not called; strictly below 50 the classifier is called once on the
    frame and, when a waypoint tree has been built, the result is the
    nearest waypoint to the candidate's stop line with the classified
    state. *)
Theorem distance_gate :
  forall (d : TLDetector Image) (msg : Image) (now : Z)
         (c : Candidate) (light : Light),
    select_candidate d = Ok c ->
    closest_light c = Some light ->
    let r := process_traffic_lights get_classification now (with_frame msg d) in
    (dist_lt_num (light_distance c) LIGHT_DISTANCE_THRESHOLD = false ->
     snd r = Ok (-1, UNKNOWN) /\ classified (snd (fst r)) = []) /\
    (dist_lt_num (light_distance c) LIGHT_DISTANCE_THRESHOLD = true ->
     classified (snd (fst r)) = [msg] /\
     forall t, waypoint_tree d = Some t ->
       exists s, py_index (config d) (stop_line_idx c) = Ok s /\
                 snd r = Ok (Z.of_nat (query t s),
                             PyInt (get_classification msg))).
Proof.
  intros d msg now c light Hsel Hl r.
  destruct (process_traffic_lights_candidate d msg now c light Hsel Hl)
    as (d1 & log1 & s & _ & Hc1 & _ & Hpy & Hrun).
  subst r. rewrite Hrun. split; intro Hgate; rewrite Hgate.
  - simpl. auto.
  - split.
    + destruct (waypoint_tree d); simpl; rewrite classified_app, Hc1;
        reflexivity.
    + intros t Ht. rewrite Ht. exists s. split; [exact Hpy|reflexivity].
Qed.

(** *** The camera callback *)

Lemma image_cb_unfold (msg : Image) (now : Z) (d : TLDetector Image) :
  image_cb get_classification msg now d =
    match process_traffic_lights get_classification now (with_frame msg d) with
    | (d1, l1, Ok r) =>
        match debounce (fst r) (snd r) d1 with
        | (d2, l2, r2) => (d2, l1 ++ l2, r2)
        end
    | (d1, l1, Raise e) => (d1, l1, Raise e)
    end.
Proof.
  unfold image_cb, with_frame. unfold bind at 1. unfold modify at 1.
  unfold bind at 1. unfold modify at 1.
  unfold bind at 1.
  destruct (process_traffic_lights _ _ _) as [[d1 l1] [r|e]]; simpl.
  - destruct (debounce (fst r) (snd r) d1) as [[d2 l2] r2]. reflexivity.
  - reflexivity.
Qed.

(** The debounce step always returns, publishes at most one integer, and
    writes the four debounce attributes only. *)
Lemma debounce_returns (light_wp : Z) (st : pyval) (d : TLDetector Image) :
  exists d2 l2,
    debounce light_wp st d = (d2, l2, Ok tt) /\
    classified l2 = [] /\
    has_image d2 = has_image d /\ prev_light_loc d2 = prev_light_loc d /\
    waypoint_tree d2 = waypoint_tree d /\ waypoints_2d d2 = waypoints_2d d.
Proof.
  unfold debounce. unfold_m.
  destruct (py_neqb (state d) st); simpl.
  - do 2 eexists. split; [reflexivity|]. simpl. auto.
  - destruct (STATE_COUNT_THRESHOLD <=? state_count d); simpl;
      do 2 eexists; (split; [reflexivity|]); simpl; auto.
Qed.

Lemma scan_returns (p q : Point) (stops : list Point) :
  forall (rest : list Light) (idx : nat) (c : Candidate),
    (idx + length rest <= length stops)%nat ->
    exists c', scan p q stops idx rest c = Ok c'.
Proof.
  induction rest as [|l rest IH]; intros idx c Hlen; simpl in *.
  - eauto.
  - unfold visit.
    destruct (nth_error stops idx) as [s|] eqn:Hs.
    2:{ apply nth_error_None in Hs. lia. }
    destruct (ahead p q s && dist_ltb (Sqrt (sqdist p s)) (light_distance c));
      apply IH; lia.
Qed.

Lemma scan_raises (p q : Point) (stops : list Point) :
  forall (rest : list Light) (idx : nat) (c : Candidate),
    (idx <= length stops)%nat ->
    (length stops < idx + length rest)%nat ->
    scan p q stops idx rest c = Raise IndexError.
Proof.
  induction rest as [|l rest IH]; intros idx c Hidx Hlen; simpl in *.
  - lia.
  - unfold visit.
    destruct (nth_error stops idx) as [s|] eqn:Hs; [|reflexivity].
    assert (idx < length stops)%nat by (apply nth_error_Some; congruence).
    destruct (ahead p q s && dist_ltb (Sqrt (sqdist p s)) (light_distance c));
      apply IH; lia.
Qed.

(** The selector fails exactly when it runs the loop over more lights than
    there are stop lines, and then with [IndexError]. *)
Lemma select_candidate_raises (d : TLDetector Image) (e : exn) :
  select_candidate d = Raise e <->
  e = IndexError /\
  (exists p q, pose d = Some p /\ previous_pose d = Some q) /\
  (length (config d) < length (lights d))%nat.
Proof.
  unfold select_candidate. split.
  - intro H.
    destruct (pose d) as [p|]; [|discriminate].
    destruct (previous_pose d) as [q|]; [|discriminate].
    destruct (Nat.le_gt_cases (length (lights d)) (length (config d)))
      as [L|G].
    + destruct (scan_returns p q (config d) (lights d) 0 no_candidate)
        as [c' Hc']; [simpl; lia|]. congruence.
    + rewrite (scan_raises p q (config d) (lights d) 0 no_candidate) in H
        by (simpl; lia).
      inversion H. split; [reflexivity|]. split; [eauto|exact G].
  - intros (-> & (p & q & Hp & Hq) & G). rewrite Hp, Hq.
    apply scan_raises; simpl; lia.
Qed.

Lemma image_cb_outcome (msg : Image) (now : Z) (d : TLDetector Image) :
  snd (image_cb get_classification msg now d) = frame_outcome d.
Proof.
  rewrite image_cb_unfold. unfold frame_outcome.
  destruct (select_candidate d) as [c|e] eqn:Hsel.
  - destruct (closest_light c) as [light|] eqn:Hl.
    + destruct (process_traffic_lights_candidate d msg now c light Hsel Hl)
        as (d1 & log1 & s & _ & _ & _ & _ & Hrun).
      rewrite Hrun.
      destruct (dist_lt_num (light_distance c) LIGHT_DISTANCE_THRESHOLD).
      * destruct (waypoint_tree d) as [t|]; [|reflexivity].
        destruct (debounce_returns (Z.of_nat (query t s))
                    (PyInt (get_classification msg)) d1)
          as (d2 & l2 & Hdb & _).
        simpl. rewrite Hdb. reflexivity.
      * destruct (debounce_returns (-1) UNKNOWN d1) as (d2 & l2 & Hdb & _).
        simpl. rewrite Hdb. reflexivity.
    + rewrite (process_traffic_lights_no_candidate d msg now c Hsel Hl).
      destruct (debounce_returns (-1) UNKNOWN (with_frame msg d))
        as (d2 & l2 & Hdb & _).
      simpl. rewrite Hdb. reflexivity.
  - rewrite (process_traffic_lights_raise d msg now e Hsel). reflexivity.
Qed.

(** A frame whose processing raises publishes nothing. *)
Lemma image_cb_raise_silent (msg : Image) (now : Z) (d : TLDetector Image)
      (e : exn) :
  snd (image_cb get_classification msg now d) = Raise e ->
  published (snd (fst (image_cb get_classification msg now d))) = [].
Proof.
  rewrite image_cb_unfold.
  destruct (select_candidate d) as [c|e0] eqn:Hsel.
  - destruct (closest_light c) as [light|] eqn:Hl.
    + destruct (process_traffic_lights_candidate d msg now c light Hsel Hl)
        as (d1 & log1 & s & _ & _ & Hp1 & _ & Hrun).
      rewrite Hrun.
      destruct (dist_lt_num (light_distance c) LIGHT_DISTANCE_THRESHOLD).
      * destruct (waypoint_tree d) as [t|].
        -- destruct (debounce_returns (Z.of_nat (query t s))
                       (PyInt (get_classification msg)) d1)
             as (d2 & l2 & Hdb & _).
           simpl. rewrite Hdb. simpl. discriminate.
        -- simpl. intros _. rewrite published_app, Hp1. reflexivity.
      * destruct (debounce_returns (-1) UNKNOWN d1) as (d2 & l2 & Hdb & _).
        simpl. rewrite Hdb. simpl. discriminate.
    + rewrite (process_traffic_lights_no_candidate d msg now c Hsel Hl).
      destruct (debounce_returns (-1) UNKNOWN (with_frame msg d))
        as (d2 & l2 & Hdb & _).
      simpl. rewrite Hdb. simpl. discriminate.
  - rewrite (process_traffic_lights_raise d msg now e0 Hsel). reflexivity.
Qed.

(** C8 (as amended).  Nothing validates the two lengths.  A frame fails
    with [IndexError] exactly when both poses are known and there are more
    lights than stop lines, and such a frame publishes nothing; under any
    other mismatch the frame is processed as usual. *)
Theorem length_mismatch_not_validated :
  forall (d : TLDetector Image) (msg : Image) (now : Z),
    let r := image_cb get_classification msg now d in
    (snd r = Raise IndexError <->
     (exists p q, pose d = Some p /\ previous_pose d = Some q) /\
     (length (config d) < length (lights d))%nat) /\
    (snd r = Raise IndexError -> published (snd (fst r)) = []).
Proof.
  intros d msg now r. subst r. split.
  - rewrite image_cb_outcome. unfold frame_outcome.
    destruct (select_candidate d) as [c|e] eqn:Hsel.
    + split.
      * intro H. exfalso.
        destruct (closest_light c); [|discriminate].
        destruct (dist_lt_num _ _); [|discriminate].
        destruct (waypoint_tree d); discriminate.
      * intros [Hp Hlen]. exfalso.
        assert (Hr : select_candidate d = Raise IndexError)
          by (apply select_candidate_raises; auto).
        congruence.
    + apply select_candidate_raises in Hsel. destruct Hsel as (-> & Hp & Hlen).
      split; auto.
  - apply image_cb_raise_silent.
Qed.

(** C9 (as amended).  Before any path update a frame does reach
    [get_closest_waypoint]: exactly when a candidate is selected strictly
    nearer than the relevance distance.  The lookup then fails with
    [AttributeError] and the frame publishes nothing. *)
Theorem frame_before_path_reaches_index :
  forall (d : TLDetector Image) (msg : Image) (now : Z),
    waypoint_tree d = None ->
    let r := image_cb get_classification msg now d in
    (snd r = Raise (AttributeError "query") <->
     exists c light,
       select_candidate d = Ok c /\ closest_light c = Some light /\
       dist_lt_num (light_distance c) LIGHT_DISTANCE_THRESHOLD = true) /\
    (snd r = Raise (AttributeError "query") -> published (snd (fst r)) = []).
Proof.
  intros d msg now Htree r. subst r. split.
  - rewrite image_cb_outcome. unfold frame_outcome. rewrite Htree.
    destruct (select_candidate d) as [c|e] eqn:Hsel.
    + destruct (closest_light c) as [light|] eqn:Hl.
      * destruct (dist_lt_num _ _) eqn:Hg.
        -- split; [intros _; eauto|reflexivity].
        -- split; [discriminate|].
           intros (c' & l' & Hc' & _ & Hg'). inversion Hc'; subst. congruence.
      * split; [discriminate|].
        intros (c' & l' & Hc' & Hl' & _). inversion Hc'; subst. congruence.
    + split.
      * intro H. inversion H; subst.
        apply select_candidate_raises in Hsel. destruct Hsel as [He _].
        discriminate.
      * intros (c' & l' & Hc' & _). discriminate.
  - apply image_cb_raise_silent.
Qed.

(** *** Path updates *)

(** C6 (as amended).  After a non-empty first waypoint sequence a later
    delivery changes neither the point list nor the tree, so every
    nearest-waypoint query answers as before. *)
Theorem second_path_update_ignored :
  forall (d : TLDetector Image) (first second : list Point) (x y : Q),
    first <> [] ->
    let d1 := fst (fst (waypoints_cb first d)) in
    let d2 := fst (fst (waypoints_cb second d1)) in
    waypoints_2d d2 = waypoints_2d d1 /\
    waypoint_tree d2 = waypoint_tree d1 /\
    snd (get_closest_waypoint x y d2) = snd (get_closest_waypoint x y d1).
Proof.
  intros d first second x y Hne d1 d2.
  assert (Htruthy : truthy_list (waypoints_2d d1) = true).
  { subst d1. unfold waypoints_cb. unfold_m. simpl.
    destruct (truthy_list (waypoints_2d d)) eqn:Ht; simpl; [exact Ht|].
    destruct first as [|w rest]; [congruence|]. reflexivity. }
  assert (H2 : waypoints_2d d2 = waypoints_2d d1 /\
               waypoint_tree d2 = waypoint_tree d1).
  { subst d2. unfold waypoints_cb at 1. unfold waypoints_cb at 1.
    unfold_m. simpl. rewrite Htruthy. simpl. auto. }
  destruct H2 as [H2a H2b]. repeat split; auto.
  unfold get_closest_waypoint. unfold_m. rewrite H2b.
  destruct (waypoint_tree d1); reflexivity.
Qed.

(** *** The no-image branch *)

(** The camera callback leaves [has_image] set and does not touch
    [prev_light_loc]. *)
Lemma image_cb_flags (msg : Image) (now : Z) (d : TLDetector Image) :
  let d' := fst (fst (image_cb get_classification msg now d)) in
  has_image d' = Some true /\ prev_light_loc d' = prev_light_loc d.
Proof.
  cbv zeta. rewrite image_cb_unfold.
  assert (Hdeb : forall w st (d1 : TLDetector Image),
             has_image d1 = Some true ->
             prev_light_loc d1 = prev_light_loc d ->
             has_image (fst (fst (debounce w st d1))) = Some true /\
             prev_light_loc (fst (fst (debounce w st d1))) = prev_light_loc d).
  { intros w st d1 H1 H2.
    destruct (debounce_returns w st d1) as (d2 & l2 & Hdb & _ & Ha & Hb & _).
    rewrite Hdb. simpl. split; congruence. }
  assert (Hcap : forall d1 : TLDetector Image,
             d1 = with_frame msg d \/
             d1 = set_image_write_ts now (with_frame msg d) ->
             has_image d1 = Some true /\
             prev_light_loc d1 = prev_light_loc d).
  { intros d1 [-> | ->]; split; reflexivity. }
  assert (Hpair : forall w st (d1 : TLDetector Image) (l1 : list (event Image)),
             has_image d1 = Some true /\ prev_light_loc d1 = prev_light_loc d ->
             let x := match debounce w st d1 with
                      | (d2, l2, r2) => (d2, l1 ++ l2, r2)
                      end in
             has_image (fst (fst x)) = Some true /\
             prev_light_loc (fst (fst x)) = prev_light_loc d).
  { intros w st d1 l1 [H1 H2]. cbv zeta.
    specialize (Hdeb w st d1 H1 H2).
    destruct (debounce w st d1) as [[d2 l2] r2]. exact Hdeb. }
  destruct (select_candidate d) as [c|e] eqn:Hsel.
  - destruct (closest_light c) as [light|] eqn:Hl.
    + destruct (process_traffic_lights_candidate d msg now c light Hsel Hl)
        as (d1 & log1 & s & Hd1 & _ & _ & _ & Hrun).
      rewrite Hrun. specialize (Hcap d1 Hd1).
      destruct (dist_lt_num (light_distance c) LIGHT_DISTANCE_THRESHOLD).
      * destruct (waypoint_tree d) as [t|]; [|exact Hcap].
        apply (Hpair _ _ d1 _ Hcap).
      * apply (Hpair _ _ d1 _ Hcap).
    + rewrite (process_traffic_lights_no_candidate d msg now c Hsel Hl).
      apply (Hpair _ _ (with_frame msg d) []). apply Hcap. auto.
  - rewrite (process_traffic_lights_raise d msg now e Hsel).
    apply Hcap. auto.
Qed.

Lemma dispatch_flags (m : message Image) (d : TLDetector Image) :
  prev_light_loc d = None -> has_image d <> Some false ->
  let d' := fst (fst (dispatch get_classification m d)) in
  prev_light_loc d' = None /\ has_image d' <> Some false.
Proof.
  intros Hp Hh. destruct m as [msg|wps|msg|msg now]; cbv zeta; simpl.
  - unfold pose_cb. unfold_m. simpl. auto.
  - unfold waypoints_cb. unfold_m. simpl.
    destruct (truthy_list (waypoints_2d d)); simpl; auto.
    destruct (KDTree_new _); simpl; auto.
  - unfold traffic_cb. unfold_m. simpl. auto.
  - destruct (image_cb_flags msg now d) as [H1 H2].
    rewrite H1, H2. split; [exact Hp|discriminate].
Qed.

(** The light state a frame resolves to is the classifier's reading of that
    frame, or the [UNKNOWN] of the paths that do not classify. *)
Lemma process_traffic_lights_state (d : TLDetector Image) (msg : Image)
      (now : Z) (wp : Z) (st : pyval) :
  snd (process_traffic_lights get_classification now (with_frame msg d))
    = Ok (wp, st) ->
  st = UNKNOWN \/ st = PyInt (get_classification msg).
Proof.
  destruct (select_candidate d) as [c|e] eqn:Hsel.
  - destruct (closest_light c) as [light|] eqn:Hl.
    + destruct (process_traffic_lights_candidate d msg now c light Hsel Hl)
        as (d1 & log1 & s & _ & _ & _ & _ & Hrun).
      rewrite Hrun.
      destruct (dist_lt_num (light_distance c) LIGHT_DISTANCE_THRESHOLD).
      * destruct (waypoint_tree d); simpl; intro H; inversion H; auto.
      * simpl; intro H; inversion H; auto.
    + rewrite (process_traffic_lights_no_candidate d msg now c Hsel Hl).
      simpl; intro H; inversion H; auto.
  - rewrite (process_traffic_lights_raise d msg now e Hsel). discriminate.
Qed.


(** C10.  Along every run from start-up the no-image branch of
    [get_light_state] is never taken: [prev_light_loc], which only that
    branch assigns, stays unassigned, [has_image] is never [False], and on
    every frame [get_light_state] returns the classifier's output. *)
Theorem no_image_branch_unreachable :
  forall (stop_line_positions : list Point) (ms : list (message Image)),
    let d := run get_classification (init stop_line_positions) ms in
    prev_light_loc d = None /\
    has_image d <> Some false /\
    (forall (msg : Image) (light : Light),
       get_light_state get_classification light (with_frame msg d) =
         (with_frame msg d, [Classify msg],
          Ok (PyInt (get_classification msg)))) /\
    (forall (msg : Image) (now wp : Z) (st : pyval),
       snd (process_traffic_lights get_classification now (with_frame msg d))
         = Ok (wp, st) ->
       st = UNKNOWN \/ st = PyInt (get_classification msg)).
Proof.
  intros cfg ms.
  assert (Hinv : forall (ms : list (message Image)) (d : TLDetector Image),
             prev_light_loc d = None -> has_image d <> Some false ->
             prev_light_loc (run get_classification d ms) = None /\
             has_image (run get_classification d ms) <> Some false).
  { clear ms. induction ms as [|m ms IH]; intros d Hp Hh; simpl; [auto|].
    destruct (dispatch_flags m d Hp Hh) as [Hp' Hh'].
    apply IH; assumption. }
  cbv zeta.
  destruct (Hinv ms (init cfg)) as [Hp Hh]; [reflexivity|discriminate|].
  repeat split; auto.
  intros msg now wp st. apply process_traffic_lights_state.
Qed.

(** *** Edge behaviour of the selector *)

Lemma ahead_stationary (p s : Point) : ahead p p s = false.
Proof.
  unfold ahead. apply Qltb_false.
  assert (H : (dot (fst s - fst p) (snd s - snd p)
                   (fst p - fst p) (snd p - snd p) == 0)%Q)
    by (unfold dot; ring).
  rewrite H. apply Qle_refl.
Qed.

Lemma scan_none_ahead (p q : Point) (stops : list Point) :
  (forall s, ahead p q s = false) ->
  forall (rest : list Light) (idx : nat) (c : Candidate),
    (idx + length rest <= length stops)%nat ->
    scan p q stops idx rest c = Ok c.
Proof.
  intros Hno. induction rest as [|l rest IH]; intros idx c Hlen; simpl in *.
  - reflexivity.
  - unfold visit.
    destruct (nth_error stops idx) as [s|] eqn:Hs.
    2:{ apply nth_error_None in Hs. lia. }
    rewrite (Hno s). cbn [andb]. apply IH. lia.
Qed.

(** X1.  A vehicle whose last two poses coincide has no motion vector: no
    stop line counts as ahead, the selector holds no candidate and the
    frame resolves to [(-1, UNKNOWN)] without classifying. *)
Theorem stationary_vehicle_has_no_candidate :
  forall (d : TLDetector Image) (p : Point) (msg : Image) (now : Z),
    pose d = Some p -> previous_pose d = Some p ->
    (length (lights d) <= length (config d))%nat ->
    select_candidate d = Ok no_candidate /\
    process_traffic_lights get_classification now (with_frame msg d) =
      (with_frame msg d, [], Ok (-1, UNKNOWN)).
Proof.
  intros d p msg now Hp Hq Hlen.
  assert (Hsel : select_candidate d = Ok no_candidate).
  { unfold select_candidate. rewrite Hp, Hq.
    apply scan_none_ahead; [apply ahead_stationary | simpl; lia]. }
  split; [exact Hsel|].
  apply (process_traffic_lights_no_candidate d msg now no_candidate Hsel).
  reflexivity.
Qed.

(** *** What a callback leaves alone *)

(** Whatever holds of the object, survives storing a frame, stamping a
    capture and the debounce step, survives the camera callback. *)
Lemma image_cb_preserves (P : TLDetector Image -> Prop)
      (msg : Image) (now : Z) (d : TLDetector Image) :
  (forall d1, P d1 -> P (with_frame msg d1)) ->
  (forall d1, P d1 -> P (set_image_write_ts now d1)) ->
  (forall d1 w st, P d1 -> P (fst (fst (debounce w st d1)))) ->
  P d -> P (fst (fst (image_cb get_classification msg now d))).
Proof.
  intros Hframe Hstamp Hdeb Hd. rewrite image_cb_unfold.
  assert (Hcap : forall d1 : TLDetector Image,
             d1 = with_frame msg d \/
             d1 = set_image_write_ts now (with_frame msg d) -> P d1).
  { intros d1 [-> | ->]; auto. }
  assert (Hpair : forall w st (d1 : TLDetector Image)
                         (l1 : list (event Image)),
             P d1 ->
             P (fst (fst (match debounce w st d1 with
                          | (d2, l2, r2) => (d2, l1 ++ l2, r2)
                          end)))).
  { intros w st d1 l1 H1. specialize (Hdeb d1 w st H1).
    destruct (debounce w st d1) as [[d2 l2] r2]. exact Hdeb. }
  destruct (select_candidate d) as [c|e] eqn:Hsel.
  - destruct (closest_light c) as [light|] eqn:Hl.
    + destruct (process_traffic_lights_candidate d msg now c light Hsel Hl)
        as (d1 & log1 & s & Hd1 & _ & _ & _ & Hrun).
      rewrite Hrun. specialize (Hcap d1 Hd1).
      destruct (dist_lt_num (light_distance c) LIGHT_DISTANCE_THRESHOLD).
      * destruct (waypoint_tree d) as [t|]; [|exact Hcap].
        apply (Hpair _ _ d1 _ Hcap).
      * apply (Hpair _ _ d1 _ Hcap).
    + rewrite (process_traffic_lights_no_candidate d msg now c Hsel Hl).
      apply (Hpair _ _ (with_frame msg d) []). apply Hcap. auto.
  - rewrite (process_traffic_lights_raise d msg now e Hsel).
    apply Hcap. auto.
Qed.

Lemma debounce_inputs (light_wp : Z) (st : pyval) (d : TLDetector Image) :
  inputs (fst (fst (debounce light_wp st d))) = inputs d.
Proof.
  unfold debounce. unfold_m.
  destruct (py_neqb (state d) st); simpl; [reflexivity|].
  destruct (STATE_COUNT_THRESHOLD <=? state_count d); reflexivity.
Qed.

Lemma image_cb_inputs (msg : Image) (now : Z) (d : TLDetector Image) :
  inputs (fst (fst (image_cb get_classification msg now d))) = inputs d.
Proof.
  apply (image_cb_preserves (fun d1 => inputs d1 = inputs d)).
  - intros d1 H. exact H.
  - intros d1 H. exact H.
  - intros d1 w st H. rewrite debounce_inputs. exact H.
  - reflexivity.
Qed.

(** X2.  A camera frame never changes what the other three subscriptions
    cached: poses, path, tree, lights and stop lines are as before. *)
Theorem image_cb_keeps_inputs :
  forall (msg : Image) (now : Z) (d : TLDetector Image),
    let d' := fst (fst (image_cb get_classification msg now d)) in
    pose d' = pose d /\ previous_pose d' = previous_pose d /\
    waypoints d' = waypoints d /\ waypoints_2d d' = waypoints_2d d /\
    waypoint_tree d' = waypoint_tree d /\
    lights d' = lights d /\ config d' = config d.
Proof.
  intros msg now d. cbv zeta.
  pose proof (image_cb_inputs msg now d) as H.
  unfold inputs in H. inversion H as [[Hp Hq Hw H2 Ht Hl Hc]].
  repeat split; assumption.
Qed.

Lemma quiet_callbacks (m : message Image) (d : TLDetector Image) :
  (forall msg now, m <> ImageColor msg now) ->
  snd (fst (dispatch get_classification m d)) = [] /\
  debounce_state (fst (fst (dispatch get_classification m d))) =
    debounce_state d.
Proof.
  intros Hm. destruct m as [msg|wps|msg|msg now]; simpl.
  - unfold pose_cb. unfold_m. simpl. auto.
  - unfold waypoints_cb. unfold_m. simpl.
    destruct (truthy_list (waypoints_2d d)); simpl; auto.
    destruct (KDTree_new _); simpl; auto.
  - unfold traffic_cb. unfold_m. simpl. auto.
  - exfalso. apply (Hm msg now). reflexivity.
Qed.

(** X3.  Pose, path and light updates have no outside effect and do not
    touch the debounce attributes: only camera frames publish, classify or
    capture. *)
Theorem only_frames_have_effects :
  forall (m : message Image) (d : TLDetector Image),
    (forall msg now, m <> ImageColor msg now) ->
    let d' := fst (fst (dispatch get_classification m d)) in
    snd (fst (dispatch get_classification m d)) = [] /\
    state d' = state d /\ last_state d' = last_state d /\
    last_wp d' = last_wp d /\ state_count d' = state_count d.
Proof.
  intros m d Hm. cbv zeta.
  destruct (quiet_callbacks m d Hm) as [Hlog Hst].
  unfold debounce_state in Hst. inversion Hst as [[Hs Hl Hw Hc]].
  repeat split; assumption.
Qed.

(** X4.  A frame cannot fail once the tree is built and there are no more
    lights than stop lines. *)
Theorem frame_returns_when_configured :
  forall (d : TLDetector Image) (msg : Image) (now : Z) (t : KDTree),
    waypoint_tree d = Some t ->
    (length (lights d) <= length (config d))%nat ->
    snd (image_cb get_classification msg now d) = Ok tt.
Proof.
  intros d msg now t Ht Hlen. rewrite image_cb_outcome. unfold frame_outcome.
  rewrite Ht.
  destruct (select_candidate d) as [c|e] eqn:Hsel.
  - destruct (closest_light c); [|reflexivity].
    destruct (dist_lt_num _ _); reflexivity.
  - apply select_candidate_raises in Hsel. destruct Hsel as (_ & _ & Hgt). lia.
Qed.

(** X5.  A frame whose processing raises is not counted: the four debounce
    attributes are as before the frame. *)
Theorem failed_frame_keeps_debounce_state :
  forall (d : TLDetector Image) (msg : Image) (now : Z) (e : exn),
    snd (image_cb get_classification msg now d) = Raise e ->
    debounce_state (fst (fst (image_cb get_classification msg now d))) =
      debounce_state d.
Proof.
  intros d msg now e. rewrite image_cb_unfold.
  destruct (select_candidate d) as [c|e0] eqn:Hsel.
  - destruct (closest_light c) as [light|] eqn:Hl.
    + destruct (process_traffic_lights_candidate d msg now c light Hsel Hl)
        as (d1 & log1 & s & Hd1 & _ & _ & _ & Hrun).
      rewrite Hrun.
      destruct (dist_lt_num (light_distance c) LIGHT_DISTANCE_THRESHOLD).
      * destruct (waypoint_tree d) as [t|].
        -- destruct (debounce_returns (Z.of_nat (query t s))
                       (PyInt (get_classification msg)) d1)
             as (d2 & l2 & Hdb & _).
           simpl. rewrite Hdb. simpl. discriminate.
        -- intros _. destruct Hd1 as [-> | ->]; reflexivity.
      * destruct (debounce_returns (-1) UNKNOWN d1) as (d2 & l2 & Hdb & _).
        simpl. rewrite Hdb. simpl. discriminate.
    + rewrite (process_traffic_lights_no_candidate d msg now c Hsel Hl).
      destruct (debounce_returns (-1) UNKNOWN (with_frame msg d))
        as (d2 & l2 & Hdb & _).
      simpl. rewrite Hdb. simpl. discriminate.
  - rewrite (process_traffic_lights_raise d msg now e0 Hsel). reflexivity.
Qed.

(** *** The debounce step in detail *)

Lemma py_eqb_refl (v : pyval) : py_eqb v v = true.
Proof. unfold py_eqb. apply Z.eqb_refl. Qed.

(** The four ways a debounce step can end: reset (silent), hold (old
    index), commit on [RED] (new index), commit on another colour ([-1]). *)
Lemma debounce_cases (light_wp : Z) (st : pyval) (d : TLDetector Image) :
  exists d2 l2,
    debounce light_wp st d = (d2, l2, Ok tt) /\
    inputs d2 = inputs d /\
    ((l2 = [] /\ last_wp d2 = last_wp d) \/
     (l2 = [Publish (last_wp d)] /\ last_wp d2 = last_wp d) \/
     (l2 = [Publish light_wp] /\ last_wp d2 = light_wp) \/
     (l2 = [Publish (-1)] /\ last_wp d2 = -1)).
Proof.
  unfold debounce. unfold_m.
  destruct (py_neqb (state d) st); simpl.
  - do 2 eexists. split; [reflexivity|]. split; [reflexivity|]. auto.
  - destruct (STATE_COUNT_THRESHOLD <=? state_count d); simpl.
    + destruct (py_eqb st RED);
        do 2 eexists; (split; [reflexivity|]); (split; [reflexivity|]);
        simpl; auto.
    + do 2 eexists. split; [reflexivity|]. split; [reflexivity|]. simpl. auto.
Qed.

(** A state equal to the observed one and already counted three times is
    committed. *)
Lemma debounce_commit (light_wp : Z) (st : pyval) (d : TLDetector Image) :
  py_eqb (state d) st = true ->
  STATE_COUNT_THRESHOLD <= state_count d ->
  exists d2,
    debounce light_wp st d =
      (d2, [Publish (if py_eqb st RED then light_wp else -1)], Ok tt) /\
    state d2 = state d /\ state_count d2 = state_count d + 1.
Proof.
  intros He Hc. unfold debounce. unfold_m. unfold py_neqb. rewrite He.
  apply Z.leb_le in Hc. rewrite Hc. simpl.
  eexists. split; [reflexivity|]. simpl. auto.
Qed.

Lemma debounce_counts (light_wp : Z) (st : pyval) (d : TLDetector Image) :
  py_eqb (state d) st = true ->
  exists d2 l2,
    debounce light_wp st d = (d2, l2, Ok tt) /\
    state d2 = state d /\ state_count d2 = state_count d + 1.
Proof.
  intros He. unfold debounce. unfold_m. unfold py_neqb. rewrite He. simpl.
  destruct (STATE_COUNT_THRESHOLD <=? state_count d); simpl;
    do 2 eexists; (split; [reflexivity|]); simpl; auto.
Qed.

Lemma debounce_reset (light_wp : Z) (st : pyval) (d : TLDetector Image) :
  py_eqb (state d) st = false ->
  exists d2,
    debounce light_wp st d = (d2, [], Ok tt) /\
    state d2 = st /\ state_count d2 = 1.
Proof.
  intros He. unfold debounce. unfold_m. unfold py_neqb. rewrite He. simpl.
  eexists. split; [reflexivity|]. simpl. auto.
Qed.

Lemma feed_held (st : pyval) :
  forall (ws : list Z) (d : TLDetector Image) (n : Z) (k : nat)
         (l : list (event Image)) (w : Z),
    py_eqb (state d) st = true ->
    n <= state_count d ->
    STATE_COUNT_THRESHOLD <= n + Z.of_nat k ->
    nth_error (feed d (map (fun w => (w, st)) ws)) k = Some l ->
    nth_error ws k = Some w ->
    published l = [if py_eqb st RED then w else -1].
Proof.
  induction ws as [|w0 ws IH]; intros d n k l w He Hn Hk Hl Hw.
  - destruct k; discriminate.
  - simpl in Hl. destruct k as [|k].
    + simpl in Hw. inversion Hw; subst w0. clear Hw.
      destruct (debounce_commit w st d He) as (d2 & Hdb & _); [simpl in Hk; lia|].
      rewrite Hdb in Hl. simpl in Hl. inversion Hl. reflexivity.
    + destruct (debounce_counts w0 st d He) as (d2 & l2 & Hdb & Hs2 & Hc2).
      rewrite Hdb in Hl. simpl in Hl, Hw.
      apply (IH d2 (n + 1) k l w); try assumption; try lia.
      rewrite Hs2. exact He.
Qed.

(** X6.  A state that keeps being resolved is acted upon from the fourth
    frame on: whatever the debounce state was (with a counter that is not
    negative), frame [k >= 3] of a run of equal states publishes that
    frame's waypoint index if the state is [RED] and [-1] otherwise. *)
Theorem held_state_is_committed :
  forall (d : TLDetector Image) (st : pyval) (ws : list Z)
         (k : nat) (l : list (event Image)) (w : Z),
    0 <= state_count d ->
    (3 <= k)%nat ->
    nth_error (feed d (map (fun w => (w, st)) ws)) k = Some l ->
    nth_error ws k = Some w ->
    published l = [if py_eqb st RED then w else -1].
Proof.
  intros d st ws k l w Hc Hk Hl Hw.
  destruct (py_eqb (state d) st) eqn:He.
  - apply (feed_held st ws d 0 k l w); try assumption.
    unfold STATE_COUNT_THRESHOLD. lia.
  - destruct ws as [|w0 ws]; [destruct k; discriminate|].
    destruct k as [|k]; [lia|].
    simpl in Hl, Hw.
    destruct (debounce_reset w0 st d He) as (d2 & Hdb & Hs2 & Hc2).
    rewrite Hdb in Hl. simpl in Hl.
    apply (feed_held st ws d2 1 k l w); try assumption.
    + rewrite Hs2. apply py_eqb_refl.
    + lia.
    + unfold STATE_COUNT_THRESHOLD. lia.
Qed.

(** *** The camera callback, case by case *)

(** A frame either raises before the debounce step, having published
    nothing, or feeds the debounce step with [(-1, UNKNOWN)] or with a
    waypoint index from the tree and the classifier's reading. *)
Lemma image_cb_cases (msg : Image) (now : Z) (d : TLDetector Image) :
  (exists e d1 l1,
      image_cb get_classification msg now d = (d1, l1, Raise e) /\
      published l1 = []) \/
  (exists d1 l1 w st,
      (d1 = with_frame msg d \/
       d1 = set_image_write_ts now (with_frame msg d)) /\
      published l1 = [] /\
      ((w = -1 /\ st = UNKNOWN) \/
       (exists t s, waypoint_tree d = Some t /\
                    w = Z.of_nat (query t s) /\
                    st = PyInt (get_classification msg))) /\
      image_cb get_classification msg now d =
        match debounce w st d1 with
        | (d2, l2, r2) => (d2, l1 ++ l2, r2)
        end).
Proof.
  rewrite image_cb_unfold.
  destruct (select_candidate d) as [c|e] eqn:Hsel.
  - destruct (closest_light c) as [light|] eqn:Hl.
    + destruct (process_traffic_lights_candidate d msg now c light Hsel Hl)
        as (d1 & log1 & s & Hd1 & _ & Hp1 & _ & Hrun).
      rewrite Hrun.
      destruct (dist_lt_num (light_distance c) LIGHT_DISTANCE_THRESHOLD).
      * destruct (waypoint_tree d) as [t|] eqn:Ht.
        -- right. exists d1, (log1 ++ [Classify msg]),
             (Z.of_nat (query t s)), (PyInt (get_classification msg)).
           split; [exact Hd1|]. split.
           ++ rewrite published_app, Hp1. reflexivity.
           ++ split; [right; exists t, s; auto | reflexivity].
        -- left. do 3 eexists. split; [reflexivity|].
           rewrite published_app, Hp1. reflexivity.
      * right. exists d1, log1, (-1), UNKNOWN.
        split; [exact Hd1|]. split; [exact Hp1|].
        split; [left; auto | reflexivity].
    + rewrite (process_traffic_lights_no_candidate d msg now c Hsel Hl).
      right. exists (with_frame msg d), [], (-1), UNKNOWN.
      split; [left; reflexivity|]. split; [reflexivity|].
      split; [left; auto | reflexivity].
  - rewrite (process_traffic_lights_raise d msg now e Hsel).
    left. do 3 eexists. split; reflexivity.
Qed.

(** X7.  A frame publishes at most one integer. *)
Theorem frame_publishes_at_most_once :
  forall (msg : Image) (now : Z) (d : TLDetector Image),
    (length (published (snd (fst (image_cb get_classification msg now d))))
     <= 1)%nat.
Proof.
  intros msg now d.
  destruct (image_cb_cases msg now d)
    as [(e & d1 & l1 & Hrun & Hp) | (d1 & l1 & w & st & _ & Hp & _ & Hrun)];
    rewrite Hrun.
  - simpl. rewrite Hp. simpl. lia.
  - destruct (debounce_cases w st d1) as (d2 & l2 & Hdb & _ & Hl2).
    rewrite Hdb. simpl. rewrite published_app, Hp. simpl.
    destruct Hl2 as [[-> _]|[[-> _]|[[-> _]|[-> _]]]]; simpl; lia.
Qed.

(** X8.  The classifier is called at most once per frame, on that frame,
    and exactly when a candidate is held strictly nearer than the relevance
    distance. *)
Theorem frame_classifies_near_candidates_only :
  forall (msg : Image) (now : Z) (d : TLDetector Image),
    let log := snd (fst (image_cb get_classification msg now d)) in
    (classified log = [] \/ classified log = [msg]) /\
    (classified log = [msg] <->
     exists c light,
       select_candidate d = Ok c /\ closest_light c = Some light /\
       dist_lt_num (light_distance c) LIGHT_DISTANCE_THRESHOLD = true).
Proof.
  intros msg now d. cbv zeta. rewrite image_cb_unfold.
  assert (Hdeb : forall w st (d1 : TLDetector Image)
                        (l1 : list (event Image)),
             classified (snd (fst (match debounce w st d1 with
                                   | (d2, l2, r2) => (d2, l1 ++ l2, r2)
                                   end))) = classified l1).
  { intros w st d1 l1.
    destruct (debounce_returns w st d1) as (d2 & l2 & Hdb & Hc2 & _).
    rewrite Hdb. simpl. rewrite classified_app, Hc2. apply app_nil_r. }
  destruct (select_candidate d) as [c|e] eqn:Hsel.
  - destruct (closest_light c) as [light|] eqn:Hl.
    + destruct (process_traffic_lights_candidate d msg now c light Hsel Hl)
        as (d1 & log1 & s & _ & Hc1 & _ & _ & Hrun).
      rewrite Hrun.
      destruct (dist_lt_num (light_distance c) LIGHT_DISTANCE_THRESHOLD)
        eqn:Hg.
      * assert (Hcl : classified (log1 ++ [Classify msg]) = [msg])
          by (rewrite classified_app, Hc1; reflexivity).
        destruct (waypoint_tree d) as [t|].
        -- cbv beta iota; cbn [fst snd]; rewrite Hdeb, Hcl.
           split; [auto|]. split; [intros _; eauto|reflexivity].
        -- simpl. rewrite Hcl.
           split; [auto|]. split; [intros _; eauto|reflexivity].
      * cbv beta iota; cbn [fst snd]; rewrite Hdeb, Hc1.
        split; [auto|]. split; [discriminate|].
        intros (c' & l' & Hc' & _ & Hg'). inversion Hc'; subst. congruence.
    + rewrite (process_traffic_lights_no_candidate d msg now c Hsel Hl).
      cbv beta iota; cbn [fst snd]; rewrite Hdeb. simpl.
      split; [auto|]. split; [discriminate|].
      intros (c' & l' & Hc' & Hl' & _). inversion Hc'; subst. congruence.
  - rewrite (process_traffic_lights_raise d msg now e Hsel). simpl.
    split; [auto|]. split; [discriminate|].
    intros (c' & l' & Hc' & _). discriminate.
Qed.

(** *** Dataset capture *)

(** X9.  What the capture step may do on a frame: it writes at most one
    sample, this frame labelled with the light's ground-truth state, and
    then stamps the clock; it writes nothing beyond the capture distance,
    and nothing while the observed state equals the light's state and less
    than the capture period has passed since the last sample. *)
Theorem capture_rules :
  forall (now : Z) (light : Light) (ld : dist) (msg : Image)
         (d : TLDetector Image),
    let r := try_image_capture now light ld (with_frame msg d) in
    let log := snd (fst r) in
    (log = [] \/
     (log = [Capture msg (light_state light)] /\
      image_write_ts (fst (fst r)) = now)) /\
    (dist_gt_num ld IMAGE_CAPTURE_DISTANCE = true -> log = []) /\
    (py_eqb (state d) (PyInt (light_state light)) = true ->
     now < image_write_ts d + capture_period -> log = []).
Proof.
  intros now light ld msg d. cbv zeta.
  unfold try_image_capture.
  destruct (dist_gt_num ld IMAGE_CAPTURE_DISTANCE).
  - unfold_m. simpl. auto.
  - unfold read_camera_image, read_has_image. unfold_m. simpl.
    unfold py_neqb.
    destruct (py_eqb (state d) (PyInt (light_state light))); simpl.
    + destruct (image_write_ts d + capture_period <=? now) eqn:E; simpl.
      * repeat split; auto; try discriminate.
        intros _ Hlt. apply Z.leb_le in E. lia.
      * repeat split; auto; discriminate.
    + repeat split; auto; discriminate.
Qed.

Lemma debounce_view (w : Z) (st : pyval) (a b : TLDetector Image) :
  debounce_state a = debounce_state b ->
  snd (fst (debounce w st a)) = snd (fst (debounce w st b)) /\
  snd (debounce w st a) = snd (debounce w st b) /\
  debounce_state (fst (fst (debounce w st a))) =
    debounce_state (fst (fst (debounce w st b))).
Proof.
  unfold debounce_state. intro H. inversion H as [[Hs Hl Hw Hc]].
  unfold debounce. unfold_m. rewrite Hs, Hc, Hw.
  destruct (py_neqb (state b) st); simpl; [rewrite Hl, Hw; auto|].
  destruct (STATE_COUNT_THRESHOLD <=? state_count b); simpl;
    rewrite ?Hl, ?Hs, ?Hw, ?Hc; auto.
Qed.

Lemma frame_view_debounce (w : Z) (st : pyval) (a b : TLDetector Image)
      (la lb : list (event Image)) :
  debounce_state a = debounce_state b ->
  published la = published lb -> classified la = classified lb ->
  frame_view (match debounce w st a with
              | (d2, l2, r2) => (d2, la ++ l2, r2)
              end) =
  frame_view (match debounce w st b with
              | (d2, l2, r2) => (d2, lb ++ l2, r2)
              end).
Proof.
  intros Hs Hp Hc.
  destruct (debounce_view w st a b Hs) as (H1 & H2 & H3).
  destruct (debounce w st a) as [[a2 la2] ra].
  destruct (debounce w st b) as [[b2 lb2] rb].
  simpl in H1, H2, H3. subst. unfold frame_view. simpl.
  rewrite !published_app, !classified_app, Hp, Hc, H3. reflexivity.
Qed.

(** X10.  Dataset capture is purely diagnostic: what a frame publishes,
    classifies, returns and leaves in the debounce attributes depends
    neither on the clock nor on the time of the last capture. *)
Theorem capture_does_not_affect_output :
  forall (d : TLDetector Image) (msg : Image) (now now' ts : Z),
    frame_view (image_cb get_classification msg now'
                         (set_image_write_ts ts d)) =
    frame_view (image_cb get_classification msg now d).
Proof.
  intros d msg now now' ts. rewrite !image_cb_unfold.
  set (d' := set_image_write_ts ts d).
  assert (Hsel' : select_candidate d' = select_candidate d) by reflexivity.
  assert (Hst : forall a b : TLDetector Image,
             (a = with_frame msg d' \/
              a = set_image_write_ts now' (with_frame msg d')) ->
             (b = with_frame msg d \/
              b = set_image_write_ts now (with_frame msg d)) ->
             debounce_state a = debounce_state b).
  { intros a b [-> | ->] [-> | ->]; reflexivity. }
  destruct (select_candidate d) as [c|e] eqn:Hsel.
  - destruct (closest_light c) as [light|] eqn:Hl.
    + destruct (process_traffic_lights_candidate d msg now c light Hsel Hl)
        as (d1 & log1 & s & Hd1 & Hc1 & Hp1 & Hpy & Hrun).
      destruct (process_traffic_lights_candidate d' msg now' c light Hsel' Hl)
        as (d1' & log1' & s' & Hd1' & Hc1' & Hp1' & Hpy' & Hrun').
      rewrite Hrun, Hrun'.
      assert (Hss : s' = s).
      { change (config d') with (config d) in Hpy'. congruence. }
      subst s'.
      change (waypoint_tree d') with (waypoint_tree d).
      destruct (dist_lt_num (light_distance c) LIGHT_DISTANCE_THRESHOLD).
      * destruct (waypoint_tree d) as [t|].
        -- cbv beta iota. cbn [fst snd].
           apply frame_view_debounce; auto.
           ++ rewrite !published_app. congruence.
           ++ rewrite !classified_app. congruence.
        -- unfold frame_view. simpl.
           rewrite !published_app, !classified_app, Hp1, Hp1', Hc1, Hc1'.
           rewrite (Hst d1' d1 Hd1' Hd1). reflexivity.
      * cbv beta iota. cbn [fst snd].
        apply frame_view_debounce; auto; congruence.
    + rewrite (process_traffic_lights_no_candidate d msg now c Hsel Hl).
      rewrite (process_traffic_lights_no_candidate d' msg now' c Hsel' Hl).
      cbv beta iota. cbn [fst snd].
      apply frame_view_debounce; auto.
  - rewrite (process_traffic_lights_raise d msg now e Hsel).
    rewrite (process_traffic_lights_raise d' msg now' e Hsel').
    reflexivity.
Qed.

(** *** Path updates, continued *)

Lemma map_pair_eta (l : list Point) :
  map (fun waypoint : Point => (fst waypoint, snd waypoint)) l = l.
Proof.
  induction l as [|[a b] l IH]; simpl; [reflexivity|]. rewrite IH. reflexivity.
Qed.

Lemma waypoints_cb_builds (d : TLDetector Image) (wps : list Point) :
  truthy_list (waypoints_2d d) = false ->
  wps <> [] ->
  waypoints_cb wps d =
    (set_waypoint_tree (Some {| data := wps |})
       (set_waypoints_2d (Some wps) (set_waypoints (Some wps) d)),
     [], Ok tt).
Proof.
  intros Hf Hne. unfold waypoints_cb. unfold_m. simpl. rewrite Hf. simpl.
  rewrite map_pair_eta. destruct wps as [|w rest]; [congruence|]. reflexivity.
Qed.

Lemma waypoints_cb_keeps (d : TLDetector Image) (wps : list Point) :
  truthy_list (waypoints_2d d) = true ->
  waypoints_cb wps d = (set_waypoints (Some wps) d, [], Ok tt).
Proof.
  intros Ht. unfold waypoints_cb. unfold_m. simpl. rewrite Ht. reflexivity.
Qed.

(** X11.  The stored lane follows every delivery, the index only the
    first: after a non-empty first delivery on a node without points and a
    second delivery, [waypoints] holds the second sequence while
    [waypoints_2d] and the tree hold the first. *)
Theorem latest_lane_stored_first_lane_indexed :
  forall (d : TLDetector Image) (first second : list Point),
    truthy_list (waypoints_2d d) = false ->
    first <> [] ->
    let d1 := fst (fst (waypoints_cb first d)) in
    let d2 := fst (fst (waypoints_cb second d1)) in
    waypoints d2 = Some second /\
    waypoints_2d d2 = Some first /\
    waypoint_tree d2 = Some {| data := first |}.
Proof.
  intros d first second Hf Hne. cbv zeta.
  rewrite (waypoints_cb_builds d first Hf Hne). cbn [fst].
  rewrite waypoints_cb_keeps.
  - repeat split; reflexivity.
  - destruct first; [congruence|reflexivity].
Qed.

(** *** Invariants of a run *)

Lemma run_app (ms1 ms2 : list (message Image)) :
  forall d : TLDetector Image,
    run get_classification d (ms1 ++ ms2) =
    run get_classification (run get_classification d ms1) ms2.
Proof.
  induction ms1 as [|m ms1 IH]; intro d; simpl; [reflexivity|]. apply IH.
Qed.

Lemma inputs_fields (a b : TLDetector Image) :
  inputs a = inputs b ->
  pose a = pose b /\ previous_pose a = previous_pose b /\
  waypoints_2d a = waypoints_2d b /\ waypoint_tree a = waypoint_tree b /\
  lights a = lights b /\ config a = config b.
Proof.
  unfold inputs. intro H. inversion H. auto 10.
Qed.

(** One callback keeps the tree invariant, the stop lines, and a tree that
    is there. *)
Lemma dispatch_tree (m : message Image) (d : TLDetector Image) :
  tree_built d ->
  let d' := fst (fst (dispatch get_classification m d)) in
  tree_built d' /\ config d' = config d /\
  (forall t, waypoint_tree d = Some t -> waypoint_tree d' = Some t).
Proof.
  intros Hb. cbv zeta. destruct m as [msg|wps|msg|msg now]; simpl.
  - unfold pose_cb. unfold_m. simpl. auto.
  - destruct (truthy_list (waypoints_2d d)) eqn:Ht.
    + rewrite (waypoints_cb_keeps d wps Ht). simpl. auto.
    + assert (Hnone : waypoint_tree d = None).
      { destruct (waypoint_tree d) as [t|] eqn:E; [|reflexivity].
        destruct (Hb t E) as [Hne H2]. rewrite H2 in Ht.
        destruct (data t); [congruence|discriminate]. }
      destruct wps as [|w rest].
      * unfold waypoints_cb. unfold_m. simpl. rewrite Ht. simpl.
        split; [|split].
        -- intros t0 Ht0. simpl in Ht0. congruence.
        -- reflexivity.
        -- intros t0 Ht0. congruence.
      * rewrite (waypoints_cb_builds d (w :: rest) Ht) by discriminate.
        simpl. split; [|split].
        -- intros t0 Ht0. simpl in Ht0. inversion Ht0; subst. simpl.
           split; [discriminate|reflexivity].
        -- reflexivity.
        -- intros t0 Ht0. congruence.
  - unfold traffic_cb. unfold_m. simpl. auto.
  - destruct (inputs_fields _ _ (image_cb_inputs msg now d))
      as (_ & _ & H2d & Htree & _ & Hcfg).
    split; [|split].
    + intros t0 Ht0. rewrite Htree in Ht0. rewrite H2d. apply Hb. exact Ht0.
    + exact Hcfg.
    + intros t0 Ht0. rewrite Htree. exact Ht0.
Qed.

Lemma run_tree (ms : list (message Image)) :
  forall d : TLDetector Image,
    tree_built d ->
    tree_built (run get_classification d ms) /\
    config (run get_classification d ms) = config d /\
    (forall t, waypoint_tree d = Some t ->
               waypoint_tree (run get_classification d ms) = Some t).
Proof.
  induction ms as [|m ms IH]; intros d Hb; simpl; [auto|].
  destruct (dispatch_tree m d Hb) as (Hb' & Hc' & Ht').
  destruct (IH _ Hb') as (Hb2 & Hc2 & Ht2).
  split; [exact Hb2|]. split; [congruence|].
  intros t Ht. apply Ht2. apply Ht'. exact Ht.
Qed.

Lemma init_tree_built (stop_line_positions : list Point) :
  tree_built (init (Image := Image) stop_line_positions).
Proof. intros t H. discriminate. Qed.

(** X12.  Index stability over a whole run: once a tree is built, no later
    message of any kind replaces or removes it, and it indexes a non-empty
    point list. *)
Theorem tree_never_changes :
  forall (stop_line_positions : list Point) (ms1 ms2 : list (message Image))
         (t : KDTree),
    waypoint_tree (run get_classification (init stop_line_positions) ms1)
      = Some t ->
    waypoint_tree (run get_classification (init stop_line_positions)
                       (ms1 ++ ms2)) = Some t /\
    data t <> [].
Proof.
  intros cfg ms1 ms2 t Ht. rewrite run_app.
  destruct (run_tree ms1 (init cfg) (init_tree_built cfg)) as (Hb & _ & _).
  destruct (run_tree ms2 _ Hb) as (_ & _ & Hkeep).
  split; [apply Hkeep; exact Ht | apply (Hb t Ht)].
Qed.

Lemma query_lt (t : KDTree) (p : Point) :
  data t <> [] -> (query t p < length (data t))%nat.
Proof.
  intro H. destruct (query_nearest t p H) as (w & Hw & _).
  apply nth_error_Some. congruence.
Qed.

Lemma py_index_In {A} (l : list A) (i : Z) (a : A) :
  py_index l i = Ok a -> In a l.
Proof.
  unfold py_index.
  destruct ((if i <? 0 then i + Z.of_nat (length l) else i) <? 0);
    [discriminate|].
  destruct (nth_error l _) as [b|] eqn:E; [|discriminate].
  intro H. inversion H; subst. eapply nth_error_In; eauto.
Qed.

(** The waypoint index a frame hands to the debounce step is [-1] or the
    tree's answer for one of the configured stop lines. *)
Lemma image_cb_served (msg : Image) (now : Z) (d : TLDetector Image) :
  tree_built d ->
  served d (last_wp d) ->
  let r := image_cb get_classification msg now d in
  served d (last_wp (fst (fst r))) /\
  forall v, In v (published (snd (fst r))) -> served d v.
Proof.
  intros Hb Hlast. cbv zeta. rewrite image_cb_unfold.
  assert (Hdeb : forall w st (d1 : TLDetector Image)
                        (l1 : list (event Image)),
             served d w -> last_wp d1 = last_wp d -> published l1 = [] ->
             let x := match debounce w st d1 with
                      | (d2, l2, r2) => (d2, l1 ++ l2, r2)
                      end in
             served d (last_wp (fst (fst x))) /\
             forall v, In v (published (snd (fst x))) -> served d v).
  { intros w st d1 l1 Hw Hl Hp. cbv zeta.
    destruct (debounce_cases w st d1) as (d2 & l2 & Hdb & _ & Hc).
    rewrite Hdb. simpl. rewrite published_app, Hp. simpl.
    assert (Hm : served d (-1)) by (left; reflexivity).
    destruct Hc as [[-> E]|[[-> E]|[[-> E]|[-> E]]]]; rewrite E; simpl;
      rewrite ?Hl; (split; [assumption|]); intros v Hv;
      repeat (destruct Hv as [<-|Hv]; [assumption|]); destruct Hv. }
  assert (Hcap : forall d1 : TLDetector Image,
             d1 = with_frame msg d \/
             d1 = set_image_write_ts now (with_frame msg d) ->
             last_wp d1 = last_wp d).
  { intros d1 [-> | ->]; reflexivity. }
  destruct (select_candidate d) as [c|e] eqn:Hsel.
  - destruct (closest_light c) as [light|] eqn:Hl.
    + destruct (process_traffic_lights_candidate d msg now c light Hsel Hl)
        as (d1 & log1 & s & Hd1 & _ & Hp1 & Hpy & Hrun).
      rewrite Hrun.
      destruct (dist_lt_num (light_distance c) LIGHT_DISTANCE_THRESHOLD).
      * destruct (waypoint_tree d) as [t|] eqn:Ht.
        -- apply Hdeb; [|apply Hcap; exact Hd1|].
           ++ right. exists t, s.
              repeat split; auto.
              ** eapply py_index_In; eauto.
              ** apply query_lt. apply (Hb t Ht).
           ++ rewrite published_app, Hp1. reflexivity.
        -- simpl. rewrite (Hcap d1 Hd1), published_app, Hp1. simpl.
           split; [exact Hlast|]. intros v [].
      * apply Hdeb; [left; reflexivity | apply Hcap; exact Hd1 | exact Hp1].
    + rewrite (process_traffic_lights_no_candidate d msg now c Hsel Hl).
      apply Hdeb; [left; reflexivity | reflexivity | reflexivity].
  - rewrite (process_traffic_lights_raise d msg now e Hsel). simpl.
    split; [exact Hlast|]. intros v [].
Qed.

Lemma served_step (m : message Image) (d : TLDetector Image) (v : Z) :
  tree_built d -> served d v ->
  served (fst (fst (dispatch get_classification m d))) v.
Proof.
  intros Hb [->|(t & s & Ht & Hs & -> & Hlt)]; [left; reflexivity|].
  destruct (dispatch_tree m d Hb) as (_ & Hc & Hk).
  right. exists t, s. rewrite Hc. auto.
Qed.

Lemma served_run (ms : list (message Image)) :
  forall (d : TLDetector Image) (v : Z),
    tree_built d -> served d v -> served (run get_classification d ms) v.
Proof.
  induction ms as [|m ms IH]; intros d v Hb Hv; simpl; [exact Hv|].
  apply IH; [apply (dispatch_tree m d Hb) | apply served_step; assumption].
Qed.

Lemma dispatch_served (m : message Image) (d : TLDetector Image) :
  tree_built d -> served d (last_wp d) ->
  let x := dispatch get_classification m d in
  served (fst (fst x)) (last_wp (fst (fst x))) /\
  forall v, In v (published (snd (fst x))) -> served (fst (fst x)) v.
Proof.
  intros Hb Hl. cbv zeta.
  assert (Hquiet : (forall msg now, m <> ImageColor msg now) ->
            served (fst (fst (dispatch get_classification m d)))
                   (last_wp (fst (fst (dispatch get_classification m d)))) /\
            forall v,
              In v (published (snd (fst (dispatch get_classification m d)))) ->
              served (fst (fst (dispatch get_classification m d))) v).
  { intro Hm. destruct (quiet_callbacks m d Hm) as [Hlog Hst].
    rewrite Hlog. unfold debounce_state in Hst. inversion Hst as [[Hs0 Hl0 Hw Hc0]].
    rewrite Hw. split; [apply served_step; assumption | intros v []]. }
  destruct m as [msg|wps|msg|msg now];
    try (apply Hquiet; intros; discriminate).
  destruct (image_cb_served msg now d Hb Hl) as [H1 H2].
  split.
  - apply (served_step (ImageColor msg now) d _ Hb H1).
  - intros v Hv. apply (served_step (ImageColor msg now) d _ Hb).
    apply H2. exact Hv.
Qed.

Lemma trace_served (ms : list (message Image)) :
  forall (d : TLDetector Image),
    tree_built d -> served d (last_wp d) ->
    forall l r v,
      In (l, r) (trace get_classification d ms) ->
      In v (published l) ->
      served (run get_classification d ms) v.
Proof.
  induction ms as [|m ms IH]; intros d Hb Hl l r v Hin Hv; simpl in *.
  - destruct Hin.
  - destruct (dispatch_served m d Hb Hl) as [Hl' Hpub].
    destruct (dispatch_tree m d Hb) as (Hb' & _ & _).
    destruct (dispatch get_classification m d) as [[d' l0] r0] eqn:Hd.
    simpl in *. destruct Hin as [Heq|Hin].
    + inversion Heq; subst. apply served_run; auto.
    + eapply IH; eauto.
Qed.

(** X13.  Every integer the node ever publishes is [-1] or the index the
    tree returns for one of the configured stop lines, hence a valid
    position in the indexed path; the tree is the one the run ends with. *)
Theorem published_values_are_served :
  forall (stop_line_positions : list Point) (ms : list (message Image))
         (l : list (event Image)) (r : result unit) (v : Z),
    In (l, r) (trace get_classification (init stop_line_positions) ms) ->
    In v (published l) ->
    served (run get_classification (init stop_line_positions) ms) v.
Proof.
  intros cfg ms l r v Hin Hv.
  apply (trace_served ms (init cfg)) with (l := l) (r := r); auto.
  - apply init_tree_built.
  - left. reflexivity.
Qed.

(** *** Poses *)

Lemma dispatch_poses (m : message Image) (d : TLDetector Image) :
  let d' := fst (fst (dispatch get_classification m d)) in
  match m with
  | CurrentPose msg => pose d' = Some msg /\ previous_pose d' = pose d
  | _ => pose d' = pose d /\ previous_pose d' = previous_pose d
  end.
Proof.
  cbv zeta. destruct m as [msg|wps|msg|msg now]; simpl.
  - unfold pose_cb. unfold_m. simpl. auto.
  - unfold waypoints_cb. unfold_m. simpl.
    destruct (truthy_list (waypoints_2d d)); simpl; auto.
    destruct (KDTree_new _); simpl; auto.
  - unfold traffic_cb. unfold_m. simpl. auto.
  - destruct (inputs_fields _ _ (image_cb_inputs msg now d))
      as (Hp & Hq & _). auto.
Qed.

Lemma run_previous_pose (ms : list (message Image)) :
  forall d : TLDetector Image,
    previous_pose d = None ->
    (pose d = None /\ (pose_updates ms <= 1)%nat) \/ pose_updates ms = 0%nat ->
    previous_pose (run get_classification d ms) = None.
Proof.
  induction ms as [|m ms IH]; intros d Hq Hc; simpl; [exact Hq|].
  pose proof (dispatch_poses m d) as Hd. cbv zeta in Hd.
  destruct m as [msg|wps|msg|msg now]; simpl in Hc; destruct Hd as [Hp' Hq'].
  - destruct Hc as [[Hp Hle]|Hz]; [|discriminate].
    apply IH; [congruence | right; lia].
  - apply IH; [congruence|].
    destruct Hc as [[Hp Hle]|Hz]; [left; split; [congruence|lia] | right; lia].
  - apply IH; [congruence|].
    destruct Hc as [[Hp Hle]|Hz]; [left; split; [congruence|lia] | right; lia].
  - apply IH; [congruence|].
    destruct Hc as [[Hp Hle]|Hz]; [left; split; [congruence|lia] | right; lia].
Qed.

(** X14.  Two pose messages are needed before any light can be selected:
    after a run with at most one pose update the selector holds no
    candidate, whatever lights and stop lines are known. *)
Theorem two_poses_needed :
  forall (stop_line_positions : list Point) (ms : list (message Image)),
    (pose_updates ms <= 1)%nat ->
    select_candidate (run get_classification (init stop_line_positions) ms)
      = Ok no_candidate.
Proof.
  intros cfg ms Hle.
  assert (Hq : previous_pose (run get_classification (init cfg) ms) = None).
  { apply run_previous_pose; [reflexivity|]. left. split; [reflexivity|exact Hle]. }
  unfold select_candidate. rewrite Hq.
  destruct (pose _); reflexivity.
Qed.

End Properties.

(** ** The properties on concrete scenes *)

(** C1, counterexample.  With [w = 7] the sixth frame, the third
    consecutive [RED] after the [GREEN], still publishes [-1]. *)
Lemma sixth_frame_still_publishes_minus_one :
  let logs := feed fresh [(7, RED); (7, RED); (3, GREEN);
                          (7, RED); (7, RED); (7, RED)] in
  map published logs = [[]; [-1]; []; []; [-1]; [-1]] /\
  option_map published (nth_error logs 5) <> Some [7].
Proof.
  vm_compute. split; [reflexivity|discriminate].
Qed.

Lemma debounce_commits_on_fourth_red_witness :
  (state fresh = UNKNOWN /\ state_count fresh = 0 /\ last_wp fresh = -1 /\
   0 <= 7) /\
  (let logs :=
     feed fresh [(7, RED); (7, RED); (3, GREEN);
                 (7, RED); (7, RED); (7, RED); (7, RED)] in
   Forall (fun l => Forall (fun v => v = -1) (published l)) (firstn 6 logs) /\
   option_map published (nth_error logs 5) = Some [-1] /\
   option_map published (nth_error logs 6) = Some [7] /\
   7 <> -1).
Proof.
  split.
  - repeat split; try reflexivity. lia.
  - apply (debounce_commits_on_fourth_red Z fresh 7 3); try reflexivity. lia.
Defined.

(** C2, failing input.  A path, two poses and one light ten units ahead are
    cached and the first frame is classified [RED]: the resolved state
    differs from the initial [UNKNOWN] and the frame publishes nothing. *)
Theorem state_change_frame_publishes_nothing :
  trace read_colour (approaching 10 [straight_path])
        [ImageColor TrafficLight.RED 5] =
    [([Capture TrafficLight.RED TrafficLight.RED; Classify TrafficLight.RED],
      Ok tt)] /\
  published [Capture TrafficLight.RED TrafficLight.RED;
             Classify TrafficLight.RED] = [].
Proof.
  split; reflexivity.
Qed.


Lemma select_candidate_nearest_ahead_witness :
  length (lights two_lights) = length (config two_lights) /\
  ((pose two_lights = None \/ previous_pose two_lights = None ->
    select_candidate two_lights = Ok no_candidate) /\
   (forall p q, pose two_lights = Some p -> previous_pose two_lights = Some q ->
      exists c, select_candidate two_lights = Ok c /\
                nearest_ahead p q (config two_lights) (lights two_lights)
                              (length (config two_lights)) c)).
Proof.
  split.
  - reflexivity.
  - apply (select_candidate_nearest_ahead Z two_lights). reflexivity.
Defined.

(** Of a stop line ahead and one behind, the one ahead is chosen. *)
Example two_lights_selects_ahead :
  select_candidate two_lights =
    Ok {| light_distance := Sqrt 16; stop_line_idx := 0;
          closest_light := Some red_light |}.
Proof. reflexivity. Qed.

(** C5, counterexample.  A sole candidate 49 units ahead on a frame that
    comes before any path update: the classifier is called and the method
    raises instead of returning an index and a state. *)
Lemma near_candidate_without_path_raises :
  let d := approaching 49 [] in
  let c := {| light_distance := Sqrt 2401; stop_line_idx := 0;
              closest_light := Some red_light |} in
  let r := process_traffic_lights read_colour 5 (with_frame 0 d) in
  select_candidate d = Ok c /\
  dist_lt_num (light_distance c) LIGHT_DISTANCE_THRESHOLD = true /\
  classified (snd (fst r)) = [0] /\
  snd r = Raise (AttributeError "query").
Proof.
  repeat split; reflexivity.
Qed.

Lemma distance_gate_witness :
  let d := approaching 49 [straight_path] in
  let c := {| light_distance := Sqrt 2401; stop_line_idx := 0;
              closest_light := Some red_light |} in
  (select_candidate d = Ok c /\ closest_light c = Some red_light) /\
  (let r := process_traffic_lights read_colour 5 (with_frame 0 d) in
   (dist_lt_num (light_distance c) LIGHT_DISTANCE_THRESHOLD = false ->
    snd r = Ok (-1, UNKNOWN) /\ classified (snd (fst r)) = []) /\
   (dist_lt_num (light_distance c) LIGHT_DISTANCE_THRESHOLD = true ->
    classified (snd (fst r)) = [0] /\
    forall t, waypoint_tree d = Some t ->
      exists s, py_index (config d) (stop_line_idx c) = Ok s /\
                snd r = Ok (Z.of_nat (query t s), PyInt (read_colour 0)))).
Proof.
  cbv zeta. split.
  - split; reflexivity.
  - apply (distance_gate Z read_colour (approaching 49 [straight_path]) 0 5
             {| light_distance := Sqrt 2401; stop_line_idx := 0;
                closest_light := Some red_light |} red_light);
      reflexivity.
Defined.

(** A sole candidate at distance 60 yields [(-1, UNKNOWN)] unclassified; at
    49 it is classified and mapped to waypoint 1. *)
Example gate_at_60_and_49 :
  (let r := process_traffic_lights read_colour 5
              (with_frame 0 (approaching 60 [straight_path])) in
   snd r = Ok (-1, UNKNOWN) /\ classified (snd (fst r)) = []) /\
  (let r := process_traffic_lights read_colour 5
              (with_frame 0 (approaching 49 [straight_path])) in
   snd r = Ok (1, PyInt 0) /\ classified (snd (fst r)) = [0]).
Proof. repeat split; reflexivity. Qed.

(** C6, counterexample.  An empty first delivery leaves the point list
    falsy and builds no tree, so the second delivery is indexed: a query
    that failed after the first delivery answers after the second. *)
Lemma empty_first_path_is_replaced :
  let d1 := fst (fst (waypoints_cb [] fresh)) in
  let d2 := fst (fst (waypoints_cb [(0, 0); (3, 4)]%Q d1)) in
  snd (get_closest_waypoint 3 4 d1) = Raise (AttributeError "query") /\
  snd (get_closest_waypoint 3 4 d2) = Ok 1 /\
  snd (get_closest_waypoint 3 4 d2) <> snd (get_closest_waypoint 3 4 d1).
Proof.
  repeat split; try reflexivity. vm_compute. discriminate.
Qed.

Lemma second_path_update_ignored_witness :
  square_path <> [] /\
  (let d1 := fst (fst (waypoints_cb square_path fresh)) in
   let d2 := fst (fst (waypoints_cb straight_path d1)) in
   waypoints_2d d2 = waypoints_2d d1 /\
   waypoint_tree d2 = waypoint_tree d1 /\
   snd (get_closest_waypoint 49 0 d2) = snd (get_closest_waypoint 49 0 d1)).
Proof.
  split.
  - discriminate.
  - apply (second_path_update_ignored Z fresh square_path straight_path 49 0).
    discriminate.
Defined.

Lemma get_closest_waypoint_nearest_witness :
  let d := fst (fst (waypoints_cb square_path fresh)) in
  let t := {| data := square_path |} in
  (KDTree_new square_path = Ok t /\ waypoint_tree d = Some t) /\
  (exists i : nat,
     get_closest_waypoint 1 1 d = (d, [], Ok (Z.of_nat i)) /\
     nearest_waypoint square_path (1, 1)%Q i).
Proof.
  cbv zeta. split.
  - split; reflexivity.
  - apply (get_closest_waypoint_nearest Z
             (fst (fst (waypoints_cb square_path fresh)))
             square_path {| data := square_path |} 1 1); reflexivity.
Defined.

(** On the square path every corner maps to its own index and the centre,
    equidistant from all four, to index 0. *)
Example square_path_queries :
  let d := fst (fst (waypoints_cb square_path fresh)) in
  map (fun p => snd (get_closest_waypoint (fst p) (snd p) d)) square_path =
    [Ok 0; Ok 1; Ok 2; Ok 3] /\
  snd (get_closest_waypoint 1 1 d) = Ok 0.
Proof. split; reflexivity. Qed.

(** C8, counterexample.  Two stop lines are configured and one light is
    reported: start-up succeeds and the frame is processed and published. *)
Lemma mismatched_lengths_are_processed :
  length (lights one_light_two_stops) <> length (config one_light_two_stops) /\
  trace read_colour one_light_two_stops [ImageColor 0 5] =
    [([Publish (-1)], Ok tt)].
Proof.
  split; [vm_compute; discriminate | reflexivity].
Qed.

(** C9, counterexample.  No path was ever received, a light is ten units
    ahead, and the frame runs into [get_closest_waypoint]. *)
Lemma frame_without_path_queries_index :
  waypoint_tree (approaching 10 []) = None /\
  trace read_colour (approaching 10 []) [ImageColor 0 5] =
    [([Capture 0 0; Classify 0], Raise (AttributeError "query"))].
Proof.
  split; reflexivity.
Qed.

Lemma frame_before_path_reaches_index_witness :
  let d := approaching 10 [] in
  waypoint_tree d = None /\
  (let r := image_cb read_colour 0 5 d in
   (snd r = Raise (AttributeError "query") <->
    exists c light,
      select_candidate d = Ok c /\ closest_light c = Some light /\
      dist_lt_num (light_distance c) LIGHT_DISTANCE_THRESHOLD = true) /\
   (snd r = Raise (AttributeError "query") -> published (snd (fst r)) = [])).
Proof.
  cbv zeta. split.
  - reflexivity.
  - apply (frame_before_path_reaches_index Z read_colour
             (approaching 10 []) 0 5). reflexivity.
Defined.

(** ** Further properties on concrete scenes *)

Lemma stationary_vehicle_has_no_candidate_witness :
  (pose standing_still = Some (1, 0)%Q /\
   previous_pose standing_still = Some (1, 0)%Q /\
   (length (lights standing_still) <= length (config standing_still))%nat) /\
  (select_candidate standing_still = Ok no_candidate /\
   process_traffic_lights read_colour 5 (with_frame 0 standing_still) =
     (with_frame 0 standing_still, [], Ok (-1, UNKNOWN))).
Proof.
  split.
  - repeat split; try reflexivity; simpl; lia.
  - apply (stationary_vehicle_has_no_candidate Z read_colour standing_still
             (1, 0)%Q 0 5); try reflexivity; simpl; lia.
Defined.

Lemma only_frames_have_effects_witness :
  (forall (msg : Z) (now : Z),
      CurrentPose (Image := Z) (1, 0)%Q <> ImageColor msg now) /\
  (let d' := fst (fst (dispatch read_colour (CurrentPose (1, 0)%Q)
                                two_lights)) in
   snd (fst (dispatch read_colour (CurrentPose (1, 0)%Q) two_lights)) = [] /\
   state d' = state two_lights /\ last_state d' = last_state two_lights /\
   last_wp d' = last_wp two_lights /\
   state_count d' = state_count two_lights).
Proof.
  split.
  - intros msg now. discriminate.
  - apply (only_frames_have_effects Z read_colour (CurrentPose (1, 0)%Q)
             two_lights).
    intros msg now. discriminate.
Defined.

Lemma frame_returns_when_configured_witness :
  let d := approaching 49 [straight_path] in
  (waypoint_tree d = Some {| data := straight_path |} /\
   (length (lights d) <= length (config d))%nat) /\
  snd (image_cb read_colour 0 5 d) = Ok tt.
Proof.
  cbv zeta. split.
  - split; [reflexivity | simpl; lia].
  - apply (frame_returns_when_configured Z read_colour
             (approaching 49 [straight_path]) 0 5
             {| data := straight_path |}); [reflexivity | simpl; lia].
Defined.

Lemma failed_frame_keeps_debounce_state_witness :
  let d := approaching 10 [] in
  snd (image_cb read_colour 0 5 d) = Raise (AttributeError "query") /\
  debounce_state (fst (fst (image_cb read_colour 0 5 d))) = debounce_state d.
Proof.
  cbv zeta. split.
  - reflexivity.
  - apply (failed_frame_keeps_debounce_state Z read_colour
             (approaching 10 []) 0 5 (AttributeError "query")).
    reflexivity.
Defined.

Lemma held_state_is_committed_witness :
  (0 <= state_count fresh /\ (3 <= 4)%nat /\
   nth_error (feed fresh (map (fun w => (w, RED)) [7; 7; 7; 7; 8])) 4
     = Some [Publish 8] /\
   nth_error [7; 7; 7; 7; 8] 4 = Some 8) /\
  published [Publish (Image := Z) 8] = [if py_eqb RED RED then 8 else -1].
Proof.
  split.
  - repeat split; try reflexivity; simpl; lia.
  - apply (held_state_is_committed Z fresh RED [7; 7; 7; 7; 8] 4
             [Publish 8] 8); try reflexivity; simpl; lia.
Defined.

Lemma latest_lane_stored_first_lane_indexed_witness :
  (truthy_list (waypoints_2d fresh) = false /\ square_path <> []) /\
  (let d1 := fst (fst (waypoints_cb square_path fresh)) in
   let d2 := fst (fst (waypoints_cb straight_path d1)) in
   waypoints d2 = Some straight_path /\
   waypoints_2d d2 = Some square_path /\
   waypoint_tree d2 = Some {| data := square_path |}).
Proof.
  split.
  - split; [reflexivity | discriminate].
  - apply (latest_lane_stored_first_lane_indexed Z fresh square_path
             straight_path); [reflexivity | discriminate].
Defined.

Lemma tree_never_changes_witness :
  waypoint_tree (run read_colour (init []) [BaseWaypoints square_path])
    = Some {| data := square_path |} /\
  (waypoint_tree (run read_colour (init [])
                      ([BaseWaypoints square_path] ++
                       [BaseWaypoints straight_path; ImageColor 0 5]))
     = Some {| data := square_path |} /\
   data {| data := square_path |} <> []).
Proof.
  split.
  - reflexivity.
  - apply (tree_never_changes Z read_colour []
             [BaseWaypoints square_path]
             [BaseWaypoints straight_path; ImageColor 0 5]
             {| data := square_path |}).
    reflexivity.
Defined.

Lemma published_values_are_served_witness :
  (In ([Classify 0; Publish 1], Ok tt)
      (trace read_colour (init [(10, 0)%Q]) red_ahead) /\
   In 1 (published [Classify 0; Publish 1])) /\
  served (run read_colour (init [(10, 0)%Q]) red_ahead) 1.
Proof.
  assert (Hin : In ([Classify 0; Publish 1], Ok tt)
                   (trace read_colour (init [(10, 0)%Q]) red_ahead)).
  { vm_compute. do 7 right. left. reflexivity. }
  assert (Hv : In 1 (published [Classify 0; Publish (Image := Z) 1])).
  { simpl. left. reflexivity. }
  split.
  - split; assumption.
  - apply (published_values_are_served Z read_colour [(10, 0)%Q] red_ahead
             [Classify 0; Publish 1] (Ok tt) 1 Hin Hv).
Defined.

Lemma two_poses_needed_witness :
  (pose_updates [CurrentPose (Image := Z) (0, 0)%Q;
                 TrafficLights [red_light]] <= 1)%nat /\
  select_candidate
    (run read_colour (init [(5, 0)%Q])
         [CurrentPose (0, 0)%Q; TrafficLights [red_light]]) = Ok no_candidate.
Proof.
  split.
  - simpl. lia.
  - apply (two_poses_needed Z read_colour [(5, 0)%Q]
             [CurrentPose (0, 0)%Q; TrafficLights [red_light]]).
    simpl. lia.
Defined.
